(** * Router call parameters of the Uniswap V2 SDK fork

    A shallow embedding of [router.ts] (the [quote] primitive and the three
    static encoders of the abstract class [Router]) together with the
    properties stated about it.

    Conventions of the embedding:
    - a JSBI big integer is a [Z]; [JSBI.divide] truncates towards zero and
      throws on a zero divisor;
    - a thrown exception is the [Throw] branch of [result];
    - the wall clock ([new Date().getTime()], milliseconds) is an explicit
      argument [now] of every encoder;
    - [validateAndParseAddress] of the SDK core is a member of the class
      [AddressValidation];
    - the [console.log] calls of [addCallParameters] write to the console only
      and are left out;
    - [ttl], [deadline] and [decreasePercent] are JavaScript numbers and
      [balance] and [totalSupply] strings in the source; they are carried as
      the whole numbers they denote ([Z]).  Every statement about them is
      therefore a statement about whole numbers of seconds, whole
      percentages and strings that spell an integer: on a fractional
      percentage or a string that is not an integer the source throws while
      it builds the fraction, and on a fractional number of seconds it
      emits a deadline with a fractional part, and none of this is
      covered. *)

From Stdlib Require Import ZArith Ascii String List Bool Lia.
From Stdlib Require Import QArith Qround.
From Stdlib Require DecimalString HexadecimalString.
From Stdlib Require HexadecimalZ HexadecimalFacts HexadecimalPos.
Import ListNotations.

Open Scope string_scope.
Open Scope Z_scope.

(* ================================================================= *)
(** ** Exceptions *)

Inductive error : Type :=
| InvariantFailed (tag : string)   (* tiny-invariant: [invariant(false, tag)] *)
| InvalidAddress (input : string)  (* [validateAndParseAddress] rejects *)
| DivisionByZero.                  (* [JSBI.divide] by zero *)

Inductive result (A : Type) : Type :=
| Ok (a : A)
| Throw (e : error).

Arguments Ok {A} a.
Arguments Throw {A} e.

Definition bind {A B : Type} (c : result A) (k : A -> result B) : result B :=
  match c with
  | Ok a => k a
  | Throw e => Throw e
  end.

Notation "x <- c ;; k" := (bind c (fun x => k))
  (at level 61, c at next level, right associativity).
Notation "c ;;; k" := (bind c (fun _ => k))
  (at level 61, right associativity).

(** [invariant(condition, tag)] of tiny-invariant. *)
Definition invariant (condition : bool) (tag : string) : result unit :=
  if condition then Ok tt else Throw (InvariantFailed tag).

Definition succeeds {A : Type} (c : result A) : bool :=
  match c with Ok _ => true | Throw _ => false end.

(* ================================================================= *)
(** ** Big integers and their renderings *)

Module JSBI.

(** [JSBI.divide]: quotient truncated towards zero. *)
Definition divide (a b : Z) : result Z :=
  if b =? 0 then Throw DivisionByZero else Ok (Z.quot a b).

(** [x.toString()]: decimal digits, a leading [-] for negatives. *)
Definition toString (z : Z) : string :=
  DecimalString.NilZero.string_of_int (Z.to_int z).

(** [x.toString(16)]: lower-case hexadecimal digits, a leading [-] for
    negatives, no padding. *)
Definition toString16 (z : Z) : string :=
  HexadecimalString.NilZero.string_of_int (Z.to_hex_int z).

End JSBI.

(** [ONE] of [constants.ts]. *)
Definition ONE : Z := 1.

(* ================================================================= *)
(** ** JavaScript numbers reached from integers *)

(** [Number(s)] for the decimal rendering [s] of an integer is the IEEE-754
    binary64 value nearest to it, ties going to the even significand.  Such a
    value is itself an integer or an infinity, so it is carried as a [Z];
    [infinity] and its opposite stand for the two infinities, which keeps the
    order and the equality of the values compared. *)
Module JSNumber.

Definition precision : Z := 53.

Definition infinity : Z := 2 ^ 1024.

(** A non-negative [n] rounded to a multiple of [2 ^ e], ties to the even
    multiple. *)
Definition roundAt (e n : Z) : Z :=
  let q := n / 2 ^ e in
  let r := n mod 2 ^ e in
  let up := if 2 ^ e <? 2 * r then true
            else if 2 * r <? 2 ^ e then false
            else Z.odd q in
  (if up then q + 1 else q) * 2 ^ e.

Definition ofMagnitude (n : Z) : Z :=
  if n <? 2 ^ precision then n
  else Z.min infinity (roundAt (Z.log2 n - (precision - 1)) n).

Definition ofInteger (z : Z) : Z :=
  if z <? 0 then - ofMagnitude (- z) else ofMagnitude z.

End JSNumber.

(** [Number(x)] where [x] is the decimal string of an integer. *)
Definition Number (x : Z) : Z := JSNumber.ofInteger x.

(* ================================================================= *)
(** ** The exact-rational primitive *)

(** Modelled from the spec: the exact-rational arithmetic primitive
    ([Fraction] of the SDK core, which the repository imports and does not
    contain): arbitrary-precision numerator/denominator pairs with [add],
    [multiply], [divide], [invert], an equality test on values and the
    integer-truncating [quotient]. *)
Record Fraction : Type := mkFraction {
  numerator : Z;
  denominator : Z
}.

(** [new Fraction(n)]: the denominator defaults to one.  Strings, numbers and
    big integers handed to [add]/[multiply]/[divide] go through here. *)
Definition fromInt (n : Z) : Fraction := mkFraction n 1.

Definition invert (f : Fraction) : Fraction :=
  mkFraction (denominator f) (numerator f).

Definition add (f g : Fraction) : Fraction :=
  if denominator f =? denominator g
  then mkFraction (numerator f + numerator g) (denominator f)
  else mkFraction (numerator f * denominator g + numerator g * denominator f)
                  (denominator f * denominator g).

Definition multiply (f g : Fraction) : Fraction :=
  mkFraction (numerator f * numerator g) (denominator f * denominator g).

Definition divide (f g : Fraction) : Fraction :=
  mkFraction (numerator f * denominator g) (denominator f * numerator g).

Definition equalTo (f g : Fraction) : bool :=
  numerator f * denominator g =? numerator g * denominator f.

Definition quotient (f : Fraction) : result Z :=
  JSBI.divide (numerator f) (denominator f).

(** The rational number a fraction stands for (meaningful when the
    denominator is not zero). *)
Definition Fval (f : Fraction) : Q :=
  (inject_Z (numerator f) / inject_Z (denominator f))%Q.

(* ================================================================= *)
(** ** Entities consumed by the router *)

Record Currency : Type := mkCurrency {
  isNative : bool
}.

Record Token : Type := mkToken {
  address : string
}.

(** [CurrencyAmount] extends [Fraction] with a currency.  The SDK core
    refuses an amount whose quotient is undefined (zero denominator) or
    exceeds 2^256 - 1; these bounds are assumed where a property needs them
    and are not part of the record. *)
Record CurrencyAmount : Type := mkCurrencyAmount {
  currency : Currency;
  fraction : Fraction
}.

Coercion fraction : CurrencyAmount >-> Fraction.

(** [MaxUint256] of the SDK core: 2^256 - 1. *)
Definition MaxUint256 : Z :=
  115792089237316195423570985008687907853269984665640564039457584007913129639935.

(** What the constructor of [CurrencyAmount] does with a numerator and a
    denominator: it takes the quotient (a zero denominator throws there) and
    requires it to be at most [MaxUint256] ([invariant(..., 'AMOUNT')]).  The
    currency is carried along unchanged and is left out. *)
Definition currencyAmountOf (f : Fraction) : result Fraction :=
  q <- quotient f ;;
  invariant (q <=? MaxUint256) "AMOUNT" ;;;
  Ok f.

(** [multiply] and [divide] of [CurrencyAmount]: the operation of [Fraction],
    then a new [CurrencyAmount] from the resulting numerator and
    denominator. *)
Definition amountMultiply (amount other : Fraction) : result Fraction :=
  currencyAmountOf (multiply amount other).

Definition amountDivide (amount other : Fraction) : result Fraction :=
  currencyAmountOf (divide amount other).

(** The reserves of a [Pair] are currency amounts too; the router reads
    their fraction only, and multiplies them with [amountMultiply]. *)
Record Pair : Type := mkPair {
  token0 : Token;
  token1 : Token;
  reserve0 : Fraction;
  reserve1 : Fraction
}.

Inductive TradeType : Type := EXACT_INPUT | EXACT_OUTPUT.

(** Modelled from the spec: the [Trade] entity ([entities], not among the
    sources) as the opaque provider the router reads: the two currency
    amounts, the trade type, the route's token path, and the
    slippage-adjusted maximum input / minimum output for a given tolerance. *)
Record Trade : Type := mkTrade {
  inputAmount : CurrencyAmount;
  outputAmount : CurrencyAmount;
  tradeType : TradeType;
  route_path : list Token;
  maximumAmountIn : Fraction -> CurrencyAmount;
  minimumAmountOut : Fraction -> CurrencyAmount
}.

(** [TradeOptions | TradeOptionsDeadline]: the test ['ttl' in options] tells
    the two shapes apart.  Both fields are numbers of seconds; whole numbers
    only are represented. *)
Inductive Expiry : Type :=
| Ttl (ttl : Z)
| Deadline (deadline : Z).

Record TradeOptions : Type := mkTradeOptions {
  allowedSlippage : Fraction;
  expiry : Expiry;
  recipient : string;
  feeOnTransfer : option bool
}.

Inductive Arg : Type :=
| Str (s : string)
| Arr (l : list string).

Record SwapParameters : Type := mkSwapParameters {
  methodName : string;
  args : list Arg;
  value : string
}.

Class AddressValidation : Type := {
  (** [Some checksummed] for a well-formed address, [None] where the SDK
      core throws. *)
  parseAddress : string -> option string
}.

Definition validateAndParseAddress `{AddressValidation} (a : string)
  : result string :=
  match parseAddress a with
  | Some checksummed => Ok checksummed
  | None => Throw (InvalidAddress a)
  end.

(* ================================================================= *)
(** ** [router.ts] *)

Definition toHex (currencyAmount : CurrencyAmount) : result string :=
  q <- quotient currencyAmount ;;
  Ok ("0x" ++ JSBI.toString16 q).

Definition ZERO_HEX : string := "0x0".

Definition quote (amountA reserveA reserveB : Fraction) : Fraction :=
  divide (multiply amountA reserveA) reserveB.

(** [quote] called on a [CurrencyAmount], as [addCallParameters] does: the
    same body, where [multiply] and [divide] are the ones of
    [CurrencyAmount]. *)
Definition quoteAmount (amountA reserveA reserveB : Fraction)
  : result Fraction :=
  product <- amountMultiply amountA reserveA ;;
  amountDivide product reserveB.

(** [Boolean(options.feeOnTransfer)] for an optional boolean field. *)
Definition Boolean (b : option bool) : bool :=
  match b with
  | Some true => true
  | _ => false
  end.

(** [!('ttl' in options) || options.ttl > 0] *)
Definition ttlOk (e : Expiry) : bool :=
  match e with
  | Ttl ttl => 0 <? ttl
  | Deadline _ => true
  end.

(** The [deadline] constant, written the same way in the three encoders:
    [Math.floor(new Date().getTime() / 1000) + options.ttl] or
    [options.deadline], in hexadecimal behind [0x], for a whole number of
    seconds; the sum is the exact one, which is what the source computes
    while it stays within 2^53. *)
Definition deadlineHex (now : Z) (e : Expiry) : string :=
  match e with
  | Ttl ttl => "0x" ++ JSBI.toString16 (now / 1000 + ttl)
  | Deadline deadline => "0x" ++ JSBI.toString16 deadline
  end.

Section Router.

Context `{AddressValidation}.

Definition swapCallParameters (now : Z) (trade : Trade)
           (options : TradeOptions) : result SwapParameters :=
  let etherIn := isNative (currency (inputAmount trade)) in
  let etherOut := isNative (currency (outputAmount trade)) in
  invariant (negb (etherIn && etherOut)) "ETHER_IN_OUT" ;;;
  invariant (ttlOk (expiry options)) "TTL" ;;;
  to <- validateAndParseAddress (recipient options) ;;
  amountIn <- toHex (maximumAmountIn trade (allowedSlippage options)) ;;
  amountOut <- toHex (minimumAmountOut trade (allowedSlippage options)) ;;
  let path := map address (route_path trade) in
  let deadline := deadlineHex now (expiry options) in
  let useFeeOnTransfer := Boolean (feeOnTransfer options) in
  match tradeType trade with
  | EXACT_INPUT =>
      if etherIn then
        Ok (mkSwapParameters
              (if useFeeOnTransfer
               then "swapExactETHForTokensSupportingFeeOnTransferTokens"
               else "swapExactETHForTokens")
              [Str amountOut; Arr path; Str to; Str deadline]
              amountIn)
      else if etherOut then
        Ok (mkSwapParameters
              (if useFeeOnTransfer
               then "swapExactTokensForETHSupportingFeeOnTransferTokens"
               else "swapExactTokensForETH")
              [Str amountIn; Str amountOut; Arr path; Str to; Str deadline]
              ZERO_HEX)
      else
        Ok (mkSwapParameters
              (if useFeeOnTransfer
               then "swapExactTokensForTokensSupportingFeeOnTransferTokens"
               else "swapExactTokensForTokens")
              [Str amountIn; Str amountOut; Arr path; Str to; Str deadline]
              ZERO_HEX)
  | EXACT_OUTPUT =>
      invariant (negb useFeeOnTransfer) "EXACT_OUT_FOT" ;;;
      if etherIn then
        Ok (mkSwapParameters
              "swapETHForExactTokens"
              [Str amountOut; Arr path; Str to; Str deadline]
              amountIn)
      else if etherOut then
        Ok (mkSwapParameters
              "swapTokensForExactETH"
              [Str amountOut; Str amountIn; Arr path; Str to; Str deadline]
              ZERO_HEX)
      else
        Ok (mkSwapParameters
              "swapTokensForExactTokens"
              [Str amountOut; Str amountIn; Arr path; Str to; Str deadline]
              ZERO_HEX)
  end.


(** The four [let]-bound amounts of [addCallParameters].  The source keeps
    them as decimal strings ([quotient.toString()]) and reads them back with
    [JSBI.BigInt] and [Number]; here each is the integer its string
    denotes, rendered by [JSBI.toString] where it enters [args] or
    [value]. *)
Record AddAmounts : Type := mkAddAmounts {
  amountADesired : Z;
  amountBDesired : Z;
  amountAMin : Z;
  amountBMin : Z
}.

(** [new Fraction(ONE).add(options.allowedSlippage).invert()] *)
Definition slippageAdjustedOf (options : TradeOptions) : Fraction :=
  invert (add (fromInt ONE) (allowedSlippage options)).

(** [slippageAdjusted.multiply(desired).add(1).quotient] *)
Definition minimumFor (slippageAdjusted : Fraction) (desired : Z)
  : result Z :=
  quotient (add (multiply slippageAdjusted (fromInt desired)) (fromInt 1)).

(** The declarations of the four amounts. *)
Definition initialAmounts (slippageAdjusted : Fraction)
           (amount0 amount1 : CurrencyAmount) : result AddAmounts :=
  aDesired <- quotient amount0 ;;
  bDesired <- quotient amount1 ;;
  aMin <- minimumFor slippageAdjusted aDesired ;;
  bMin <- minimumFor slippageAdjusted bDesired ;;
  Ok (mkAddAmounts aDesired bDesired aMin bMin).

(** The block guarded by
    [!(pair.reserve0.equalTo(0) && pair.reserve1.equalTo(0))]. *)
Definition reconcile (pair : Pair) (amount0 amount1 : CurrencyAmount)
           (slippageAdjusted : Fraction) (st : AddAmounts)
  : result AddAmounts :=
  if negb (equalTo (reserve0 pair) (fromInt 0)
           && equalTo (reserve1 pair) (fromInt 0)) then
    optimalB <- quoteAmount amount0 (reserve1 pair) (reserve0 pair) ;;
    amountBOptimal <- quotient optimalB ;;
    if Number amountBOptimal <=? Number (amountBDesired st) then
      if Number amountBOptimal <? Number (amountBMin st) then
        bMin <- minimumFor slippageAdjusted amountBOptimal ;;
        Ok (mkAddAmounts (amountADesired st) amountBOptimal
                         (amountAMin st) bMin)
      else Ok st
    else
      optimalA <- quoteAmount amount1 (reserve0 pair) (reserve1 pair) ;;
      amountAOptimal <- quotient optimalA ;;
      if Number amountAOptimal <=? Number (amountADesired st) then
        if Number amountAOptimal <? Number (amountAMin st) then
          aMin <- minimumFor slippageAdjusted amountAOptimal ;;
          Ok (mkAddAmounts amountAOptimal (amountBDesired st)
                           aMin (amountBMin st))
        else Ok st
      else Ok st
  else Ok st.

(** The method selection closing [addCallParameters]. *)
Definition addLiquidityCall (pair : Pair) (ether0 ether1 : bool)
           (st : AddAmounts) (to deadline : string) : SwapParameters :=
  let aDesired := JSBI.toString (amountADesired st) in
  let bDesired := JSBI.toString (amountBDesired st) in
  let aMin := JSBI.toString (amountAMin st) in
  let bMin := JSBI.toString (amountBMin st) in
  if ether0 then
    mkSwapParameters
      "addLiquidityETH"
      [Str (address (token1 pair)); Str bDesired; Str bMin; Str aMin;
       Str to; Str deadline]
      aDesired
  else if ether1 then
    mkSwapParameters
      "addLiquidityETH"
      [Str (address (token0 pair)); Str aDesired; Str aMin; Str bMin;
       Str to; Str deadline]
      bDesired
  else
    mkSwapParameters
      "addLiquidity"
      [Str (address (token0 pair)); Str (address (token1 pair));
       Str aDesired; Str bDesired; Str aMin; Str bMin;
       Str to; Str deadline]
      ZERO_HEX.

Definition addCallParameters (now : Z) (pair : Pair)
           (amount0 amount1 : CurrencyAmount) (options : TradeOptions)
  : result SwapParameters :=
  let ether0 := isNative (currency amount0) in
  let ether1 := isNative (currency amount1) in
  invariant (negb (ether0 && ether1)) "ETHER_IN_OUT" ;;;
  invariant (ttlOk (expiry options)) "TTL" ;;;
  to <- validateAndParseAddress (recipient options) ;;
  let slippageAdjusted := slippageAdjustedOf options in
  st <- initialAmounts slippageAdjusted amount0 amount1 ;;
  st <- reconcile pair amount0 amount1 slippageAdjusted st ;;
  let deadline := deadlineHex now (expiry options) in
  Ok (addLiquidityCall pair ether0 ether1 st to deadline).

(** [new Fraction(balance).multiply(decreasePercent).divide(100)], for a
    [balance] that spells an integer and a whole [decreasePercent]. *)
Definition liquidityOf (balance decreasePercent : Z) : Fraction :=
  divide (multiply (fromInt balance) (fromInt decreasePercent))
         (fromInt 100).

(** [liquidity.divide(totalSupply)] *)
Definition removePercentOf (totalSupply balance decreasePercent : Z)
  : Fraction :=
  divide (liquidityOf balance decreasePercent) (fromInt totalSupply).

(** [reserve.multiply(removePercent).multiply(slippageAdjusted).quotient],
    the reserve being a [CurrencyAmount]. *)
Definition removeMinimum (reserve removePercent slippageAdjusted : Fraction)
  : result Z :=
  share <- amountMultiply reserve removePercent ;;
  adjusted <- amountMultiply share slippageAdjusted ;;
  quotient adjusted.

(** The method selection closing [removeCallParameters]; the [value] of
    the returned object is [ZERO_HEX] whatever the branch. *)
Definition removeLiquidityCall (pair : Pair) (ether0 ether1 : bool)
           (liquidityQuotient aMin bMin : Z) (to deadline : string)
  : SwapParameters :=
  let amountAMin := JSBI.toString aMin in
  let amountBMin := JSBI.toString bMin in
  if ether0 then
    mkSwapParameters
      "removeLiquidityETH"
      [Str (address (token1 pair)); Str (JSBI.toString liquidityQuotient);
       Str amountBMin; Str amountAMin; Str to; Str deadline]
      ZERO_HEX
  else if ether1 then
    mkSwapParameters
      "removeLiquidityETH"
      [Str (address (token0 pair)); Str (JSBI.toString liquidityQuotient);
       Str amountAMin; Str amountBMin; Str to; Str deadline]
      ZERO_HEX
  else
    mkSwapParameters
      "removeLiquidity"
      [Str (address (token0 pair)); Str (address (token1 pair));
       Str (JSBI.toString liquidityQuotient);
       Str amountAMin; Str amountBMin; Str to; Str deadline]
      ZERO_HEX.

Definition removeCallParameters (now : Z) (pair : Pair)
           (token0' token1' : Currency)
           (totalSupply balance decreasePercent : Z)
           (options : TradeOptions) : result SwapParameters :=
  let ether0 := isNative token0' in
  let ether1 := isNative token1' in
  invariant (negb (ether0 && ether1)) "ETHER_IN_OUT" ;;;
  invariant (ttlOk (expiry options)) "TTL" ;;;
  to <- validateAndParseAddress (recipient options) ;;
  let slippageAdjusted := slippageAdjustedOf options in
  let liquidity := liquidityOf balance decreasePercent in
  let removePercent := removePercentOf totalSupply balance decreasePercent in
  aMin <- removeMinimum (reserve0 pair) removePercent slippageAdjusted ;;
  bMin <- removeMinimum (reserve1 pair) removePercent slippageAdjusted ;;
  let deadline := deadlineHex now (expiry options) in
  liquidityQuotient <- quotient liquidity ;;
  Ok (removeLiquidityCall pair ether0 ether1 liquidityQuotient aMin bMin
                          to deadline).

End Router.

(* ================================================================= *)
(** ** The specification's side *)

(** The truncation of a rational towards zero: what [quotient] extracts. *)
Definition Qtruncate (x : Q) : Z := Z.quot (Qnum x) (Z.pos (Qden x)).

Definition feeSuffix (feeOnTransferRequested : bool) : string :=
  if feeOnTransferRequested then "SupportingFeeOnTransferTokens" else "".

(** The method-selection table of the specification, row by row, keyed by
    (tradeType, etherIn, etherOut, fee-on-transfer).  Keys without a row give
    [None]. *)
Definition swapTable (t : TradeType) (etherIn etherOut fot : bool)
           (amountIn amountOut : string) (path : list string)
           (to deadline : string) : option SwapParameters :=
  match t, etherIn, etherOut, fot with
  | EXACT_INPUT, true, false, _ =>
      Some (mkSwapParameters
              ("swapExactETHForTokens" ++ feeSuffix fot)
              [Str amountOut; Arr path; Str to; Str deadline]
              amountIn)
  | EXACT_INPUT, false, true, _ =>
      Some (mkSwapParameters
              ("swapExactTokensForETH" ++ feeSuffix fot)
              [Str amountIn; Str amountOut; Arr path; Str to; Str deadline]
              "0x0")
  | EXACT_INPUT, false, false, _ =>
      Some (mkSwapParameters
              ("swapExactTokensForTokens" ++ feeSuffix fot)
              [Str amountIn; Str amountOut; Arr path; Str to; Str deadline]
              "0x0")
  | EXACT_OUTPUT, true, false, false =>
      Some (mkSwapParameters
              "swapETHForExactTokens"
              [Str amountOut; Arr path; Str to; Str deadline]
              amountIn)
  | EXACT_OUTPUT, false, true, false =>
      Some (mkSwapParameters
              "swapTokensForExactETH"
              [Str amountOut; Str amountIn; Arr path; Str to; Str deadline]
              "0x0")
  | EXACT_OUTPUT, false, false, false =>
      Some (mkSwapParameters
              "swapTokensForExactTokens"
              [Str amountOut; Str amountIn; Arr path; Str to; Str deadline]
              "0x0")
  | _, _, _, _ => None
  end.

(** The four failure conditions listed for [swapCallParameters]. *)
Definition swapRejected `{AddressValidation} (trade : Trade)
           (options : TradeOptions) : Prop :=
  (isNative (currency (inputAmount trade)) = true
   /\ isNative (currency (outputAmount trade)) = true)
  \/ (exists ttl, expiry options = Ttl ttl /\ ttl <= 0)
  \/ (Boolean (feeOnTransfer options) = true
      /\ tradeType trade = EXACT_OUTPUT)
  \/ parseAddress (recipient options) = None.

Definition isHexDigit (c : Ascii.ascii) : bool :=
  let n := Ascii.nat_of_ascii c in
  ((48 <=? n) && (n <=? 57) || (97 <=? n) && (n <=? 102))%nat.

(** A non-negative integer in hexadecimal behind [0x], without padding: the
    digits do not start with [0] unless the whole is [0x0]. *)
Definition isHexAmount (s : string) : bool :=
  match s with
  | String "0"%char (String "x"%char digits) =>
      match digits with
      | EmptyString => false
      | String "0"%char rest =>
          match rest with EmptyString => true | _ => false end
      | _ => forallb isHexDigit (list_ascii_of_string digits)
      end
  | _ => false
  end.

(** The quotient of a fraction is within the range that the constructor
    of [CurrencyAmount] accepts. *)
Definition withinUint256 (f : Fraction) : bool :=
  Z.quot (numerator f) (denominator f) <=? MaxUint256.

(** The reconciliation of add-liquidity as the specification words it: the
    same steps with every comparison taken on the exact integers. *)
Definition reconcileExact (pair : Pair) (amount0 amount1 : CurrencyAmount)
           (slippageAdjusted : Fraction) (st : AddAmounts)
  : result AddAmounts :=
  if negb (equalTo (reserve0 pair) (fromInt 0)
           && equalTo (reserve1 pair) (fromInt 0)) then
    optimalB <- quoteAmount amount0 (reserve1 pair) (reserve0 pair) ;;
    amountBOptimal <- quotient optimalB ;;
    if amountBOptimal <=? amountBDesired st then
      if amountBOptimal <? amountBMin st then
        bMin <- minimumFor slippageAdjusted amountBOptimal ;;
        Ok (mkAddAmounts (amountADesired st) amountBOptimal
                         (amountAMin st) bMin)
      else Ok st
    else
      optimalA <- quoteAmount amount1 (reserve0 pair) (reserve1 pair) ;;
      amountAOptimal <- quotient optimalA ;;
      if amountAOptimal <=? amountADesired st then
        if amountAOptimal <? amountAMin st then
          aMin <- minimumFor slippageAdjusted amountAOptimal ;;
          Ok (mkAddAmounts amountAOptimal (amountBDesired st)
                           aMin (amountBMin st))
        else Ok st
      else Ok st
  else Ok st.

(** Reading back a rendering [0x...] of [toHex]: the integer written in
    hexadecimal behind the prefix. *)
Definition decodeHex (s : string) : option Z :=
  match s with
  | String "0"%char (String "x"%char digits) =>
      option_map Z.of_hex_int (HexadecimalString.NilZero.int_of_string digits)
  | _ => None
  end.

(** The string arguments of a call, in order (arrays such as the path are
    left out). *)
Definition stringArgs (l : list Arg) : list string :=
  flat_map (fun a => match a with Str s => [s] | Arr _ => [] end) l.

(* ================================================================= *)
(** ** Sample inputs *)

Module Sample.

(** A stand-in for the SDK core's validation: [0x] and forty more
    characters. *)
Definition validation : AddressValidation :=
  {| parseAddress := fun a =>
       if (String.prefix "0x" a && (String.length a =? 42)%nat)%bool
       then Some a else None |}.

Definition alice : string := "0x00000000000000000000000000000000000a11ce".
Definition tokenA : Token :=
  mkToken "0x000000000000000000000000000000000000000a".
Definition tokenB : Token :=
  mkToken "0x000000000000000000000000000000000000000b".

Definition erc20 : Currency := mkCurrency false.
Definition ether : Currency := mkCurrency true.

Definition raw (c : Currency) (n : Z) : CurrencyAmount :=
  mkCurrencyAmount c (fromInt n).

Definition options (slippage : Fraction) : TradeOptions :=
  mkTradeOptions slippage (Deadline 1700000000) alice None.

Definition emptyPool : Pair :=
  mkPair tokenA tokenB (fromInt 0) (fromInt 0).

Definition evenPool : Pair :=
  mkPair tokenA tokenB (fromInt 5000000000000000000000)
         (fromInt 5000000000000000000000).


(** A pool whose reserve of token 0 is 2^255. *)
Definition hugePool : Pair :=
  mkPair tokenA tokenB
         (fromInt 57896044618658097711785492504343953926634992332820282019728792003956564819968)
         (fromInt 1000).

(** A pool holding token 0 only, and one holding token 1 only. *)
Definition token0OnlyPool : Pair :=
  mkPair tokenA tokenB (fromInt 1000) (fromInt 0).

Definition token1OnlyPool : Pair :=
  mkPair tokenA tokenB (fromInt 0) (fromInt 1000).

(** One unit of token 0 for two of token 1. *)
Definition unevenPool : Pair :=
  mkPair tokenA tokenB (fromInt 1000) (fromInt 2000).

(** Ether in, exact input: one ether for at least 1800 units of [tokenB]. *)
Definition trade : Trade :=
  mkTrade (raw ether (10 ^ 18)) (raw erc20 2000) EXACT_INPUT
          [tokenA; tokenB]
          (fun _ => raw ether (10 ^ 18)) (fun _ => raw erc20 1800).

End Sample.

(* ================================================================= *)
(** * Properties *)

(** ** The error monad and [quotient] *)

Lemma quotient_defined (f : Fraction) :
  denominator f <> 0 ->
  quotient f = Ok (Z.quot (numerator f) (denominator f)).
Proof.
  intros Hd. unfold quotient, JSBI.divide.
  destruct (Z.eqb_spec (denominator f) 0); [contradiction | reflexivity].
Qed.

Lemma quotient_Ok_inv (f : Fraction) (q : Z) :
  quotient f = Ok q ->
  denominator f <> 0 /\ q = Z.quot (numerator f) (denominator f).
Proof.
  unfold quotient, JSBI.divide.
  destruct (Z.eqb_spec (denominator f) 0); intros E; inversion E; auto.
Qed.

(** ** Fractions as rationals *)

Lemma Qtruncate_comp (x y : Q) : x == y -> Qtruncate x = Qtruncate y.
Proof.
  destruct x as [a b], y as [c d]. unfold Qeq, Qtruncate. simpl. intros E.
  rewrite <- (Z.quot_mul_cancel_r a (Z.pos b) (Z.pos d)) by lia.
  rewrite E.
  rewrite (Z.mul_comm (Z.pos b) (Z.pos d)).
  apply Z.quot_mul_cancel_r; lia.
Qed.

Lemma Qtruncate_Fval (f : Fraction) :
  denominator f <> 0 ->
  Qtruncate (Fval f) = Z.quot (numerator f) (denominator f).
Proof.
  destruct f as [n d]. unfold Fval, Qtruncate. simpl. intros Hd.
  destruct d as [|p|p]; [contradiction | |]; simpl.
  - now rewrite Z.mul_1_r.
  - change (Z.neg p) with (- Z.pos p).
    rewrite Z.quot_opp_r by lia.
    replace (n * -1) with (- n) by lia.
    rewrite Z.quot_opp_l by lia. reflexivity.
Qed.

Lemma Qfloor_Fval (f : Fraction) :
  Qfloor (Fval f) = numerator f / denominator f.
Proof. unfold Fval. symmetry. apply Zdiv_Qdiv. Qed.

Lemma Fval_fromInt (z : Z) : Fval (fromInt z) == inject_Z z.
Proof. unfold Fval, fromInt. simpl. field. Qed.

Lemma Fval_multiply (f g : Fraction) :
  Fval (multiply f g) == Fval f * Fval g.
Proof.
  unfold Fval, multiply. simpl. rewrite !inject_Z_mult.
  unfold Qdiv. rewrite Qinv_mult_distr. ring.
Qed.

Lemma Fval_divide (f g : Fraction) :
  Fval (divide f g) == Fval f / Fval g.
Proof.
  unfold Fval, divide. simpl. rewrite !inject_Z_mult.
  unfold Qdiv. rewrite !Qinv_mult_distr, Qinv_involutive. ring.
Qed.

Lemma Fval_invert (f : Fraction) : Fval (invert f) == / Fval f.
Proof.
  unfold Fval, invert. simpl. unfold Qdiv.
  rewrite Qinv_mult_distr, Qinv_involutive. ring.
Qed.

Lemma inject_Z_nonzero (z : Z) : z <> 0 -> ~ inject_Z z == 0.
Proof. unfold Qeq, inject_Z. simpl. lia. Qed.

Lemma Fval_add (f g : Fraction) :
  denominator f <> 0 -> denominator g <> 0 ->
  Fval (add f g) == Fval f + Fval g.
Proof.
  intros Hf Hg. unfold Fval, add.
  destruct (Z.eqb_spec (denominator f) (denominator g)) as [E|E]; simpl.
  - rewrite <- E, inject_Z_plus. field. now apply inject_Z_nonzero.
  - rewrite inject_Z_plus, !inject_Z_mult. field.
    split; now apply inject_Z_nonzero.
Qed.

(** ** Running the encoders *)

Ltac unbind H :=
  repeat match type of H with
         | bind ?c _ = Ok _ =>
             let E := fresh "E" in
             destruct c eqn:E; cbn [bind] in H; [ | discriminate H ]
         end.

Lemma invariant_Ok_inv (condition : bool) (tag : string) (u : unit) :
  invariant condition tag = Ok u -> condition = true.
Proof. destruct condition; [reflexivity | discriminate]. Qed.

Lemma toHex_defined (a : CurrencyAmount) :
  denominator a <> 0 ->
  toHex a = Ok ("0x" ++ JSBI.toString16 (Z.quot (numerator a) (denominator a))).
Proof. intros Hd. unfold toHex. now rewrite quotient_defined. Qed.

(** ** The quote primitive *)

(** C1, as the specification states it, fails: with amountA = 100,
    reserveA = 2000 and reserveB = 1000 the function returns 200, where
    amountA * reserveB / reserveA is 50. *)
Lemma quote_claimed_formula_fails :
  let amountA := fromInt 100 in
  let reserveA := fromInt 2000 in
  let reserveB := fromInt 1000 in
  ~ Fval reserveA == 0
  /\ ~ Fval (quote amountA reserveA reserveB)
       == Fval amountA * Fval reserveB / Fval reserveA
  /\ quotient (quote amountA reserveA reserveB) = Ok 200
  /\ Qtruncate (Fval amountA * Fval reserveB / Fval reserveA) = 50.
Proof.
  cbv zeta. repeat split; try reflexivity; intros E; vm_compute in E;
    discriminate E.
Qed.


(** ** Currency amounts *)

Lemma quotient_undefined (f : Fraction) :
  denominator f = 0 -> quotient f = Throw DivisionByZero.
Proof. intros E. unfold quotient, JSBI.divide. now rewrite E. Qed.

Lemma currencyAmountOf_Ok (f : Fraction) :
  denominator f <> 0 ->
  Z.quot (numerator f) (denominator f) <= MaxUint256 ->
  currencyAmountOf f = Ok f.
Proof.
  intros Hd Hq. unfold currencyAmountOf.
  rewrite quotient_defined by exact Hd. cbn [bind].
  apply Z.leb_le in Hq. now rewrite Hq.
Qed.

Lemma currencyAmountOf_Ok_inv (f g : Fraction) :
  currencyAmountOf f = Ok g ->
  g = f /\ denominator f <> 0
  /\ Z.quot (numerator f) (denominator f) <= MaxUint256.
Proof.
  unfold currencyAmountOf. intros Hrun. unbind Hrun.
  apply quotient_Ok_inv in E. destruct E as [Hd Hq]. subst a.
  apply invariant_Ok_inv in E0. apply Z.leb_le in E0.
  inversion Hrun. subst g. repeat split; assumption.
Qed.

Lemma currencyAmountOf_overflow (f : Fraction) :
  denominator f <> 0 ->
  MaxUint256 < Z.quot (numerator f) (denominator f) ->
  currencyAmountOf f = Throw (InvariantFailed "AMOUNT").
Proof.
  intros Hd Hq. unfold currencyAmountOf.
  rewrite quotient_defined by exact Hd. cbn [bind].
  apply Z.leb_gt in Hq. now rewrite Hq.
Qed.


Lemma currencyAmountOf_defined (f : Fraction) :
  denominator f <> 0 ->
  currencyAmountOf f
  = if withinUint256 f then Ok f else Throw (InvariantFailed "AMOUNT").
Proof.
  intros Hd. unfold currencyAmountOf, withinUint256.
  rewrite quotient_defined by exact Hd. cbn [bind].
  now destruct (Z.quot (numerator f) (denominator f) <=? MaxUint256).
Qed.

Lemma quoteAmount_Ok_inv (amountA reserveA reserveB optimal : Fraction) :
  quoteAmount amountA reserveA reserveB = Ok optimal ->
  optimal = quote amountA reserveA reserveB
  /\ denominator (quote amountA reserveA reserveB) <> 0
  /\ Z.quot (numerator (quote amountA reserveA reserveB))
            (denominator (quote amountA reserveA reserveB)) <= MaxUint256.
Proof.
  unfold quoteAmount, amountMultiply, amountDivide. intros Hrun.
  unbind Hrun.
  apply currencyAmountOf_Ok_inv in E. destruct E as (-> & _ & _).
  apply currencyAmountOf_Ok_inv in Hrun. exact Hrun.
Qed.

Lemma quoteAmount_Ok (amountA reserveA reserveB : Fraction) :
  denominator (multiply amountA reserveA) <> 0 ->
  Z.quot (numerator (multiply amountA reserveA))
         (denominator (multiply amountA reserveA)) <= MaxUint256 ->
  denominator (quote amountA reserveA reserveB) <> 0 ->
  Z.quot (numerator (quote amountA reserveA reserveB))
         (denominator (quote amountA reserveA reserveB)) <= MaxUint256 ->
  quoteAmount amountA reserveA reserveB
  = Ok (quote amountA reserveA reserveB).
Proof.
  intros Hd1 Hq1 Hd2 Hq2. unfold quoteAmount, amountMultiply, amountDivide.
  rewrite currencyAmountOf_Ok by assumption. cbn [bind].
  now apply currencyAmountOf_Ok.
Qed.

(** The integer read off a successful [quoteAmount] is the quotient of
    [quote] on the fractions. *)
Lemma quoteAmount_quotient (amountA reserveA reserveB optimal : Fraction) :
  quoteAmount amountA reserveA reserveB = Ok optimal ->
  quotient optimal
  = Ok (Z.quot (numerator (quote amountA reserveA reserveB))
               (denominator (quote amountA reserveA reserveB)))
  /\ quotient (quote amountA reserveA reserveB) = quotient optimal.
Proof.
  intros Hrun. apply quoteAmount_Ok_inv in Hrun.
  destruct Hrun as (-> & Hd & _).
  split; [now apply quotient_defined | reflexivity].
Qed.


Lemma quoteAmount_within (amountA reserveA reserveB : Fraction) :
  denominator (multiply amountA reserveA) <> 0 ->
  withinUint256 (multiply amountA reserveA) = true ->
  denominator (quote amountA reserveA reserveB) <> 0 ->
  withinUint256 (quote amountA reserveA reserveB) = true ->
  quoteAmount amountA reserveA reserveB
  = Ok (quote amountA reserveA reserveB).
Proof.
  unfold withinUint256. intros Hd1 Hq1 Hd2 Hq2.
  apply Z.leb_le in Hq1. apply Z.leb_le in Hq2.
  now apply quoteAmount_Ok.
Qed.

Lemma quoteAmount_overflow (amountA reserveA reserveB : Fraction) :
  denominator (multiply amountA reserveA) <> 0 ->
  withinUint256 (multiply amountA reserveA) = false ->
  quoteAmount amountA reserveA reserveB = Throw (InvariantFailed "AMOUNT").
Proof.
  unfold withinUint256. intros Hd Hq. apply Z.leb_gt in Hq.
  unfold quoteAmount, amountMultiply.
  now rewrite currencyAmountOf_overflow.
Qed.

Lemma quoteAmount_undefined (amountA reserveA reserveB : Fraction) :
  denominator (multiply amountA reserveA) <> 0 ->
  withinUint256 (multiply amountA reserveA) = true ->
  numerator reserveB = 0 ->
  quoteAmount amountA reserveA reserveB = Throw DivisionByZero.
Proof.
  unfold withinUint256. intros Hd Hq E. apply Z.leb_le in Hq.
  unfold quoteAmount, amountMultiply, amountDivide.
  rewrite currencyAmountOf_Ok by assumption. cbn [bind].
  unfold currencyAmountOf. rewrite quotient_undefined; [reflexivity|].
  unfold divide. cbn [denominator]. rewrite E. apply Z.mul_0_r.
Qed.

Lemma removeMinimum_Ok_inv (reserve removePercent slippageAdjusted : Fraction)
      (m : Z) :
  removeMinimum reserve removePercent slippageAdjusted = Ok m ->
  quotient (multiply (multiply reserve removePercent) slippageAdjusted)
  = Ok m.
Proof.
  unfold removeMinimum, amountMultiply. intros Hrun. unbind Hrun.
  apply currencyAmountOf_Ok_inv in E. destruct E as (-> & _ & _).
  apply currencyAmountOf_Ok_inv in E0. destruct E0 as (-> & _ & _).
  exact Hrun.
Qed.

Lemma removeMinimum_Ok (reserve removePercent slippageAdjusted : Fraction) :
  denominator (multiply reserve removePercent) <> 0 ->
  Z.quot (numerator (multiply reserve removePercent))
         (denominator (multiply reserve removePercent)) <= MaxUint256 ->
  denominator (multiply (multiply reserve removePercent) slippageAdjusted)
  <> 0 ->
  Z.quot (numerator (multiply (multiply reserve removePercent)
                              slippageAdjusted))
         (denominator (multiply (multiply reserve removePercent)
                                slippageAdjusted)) <= MaxUint256 ->
  removeMinimum reserve removePercent slippageAdjusted
  = quotient (multiply (multiply reserve removePercent) slippageAdjusted).
Proof.
  intros Hd1 Hq1 Hd2 Hq2. unfold removeMinimum, amountMultiply.
  rewrite currencyAmountOf_Ok by assumption. cbn [bind].
  rewrite currencyAmountOf_Ok by assumption. reflexivity.
Qed.

Lemma floor_le_of_cross (N D n d : Z) :
  0 < D -> 0 < d -> N * d <= n * D -> N / D <= n / d.
Proof.
  intros HD Hd Hc. apply Z.lt_succ_r. apply Z.div_lt_upper_bound; [lia|].
  pose proof (Z.mul_succ_div_gt n d Hd) as Hn.
  assert (N * d < D * Z.succ (n / d) * d) by nia.
  nia.
Qed.

(** C1 (amended): for fractions amountA, reserveA, reserveB with reserveB
    non-zero, [quote amountA reserveA reserveB] is the rational
    amountA * reserveA / reserveB (second argument over third), and its
    integer quotient is that rational truncated towards zero. *)
Theorem quote_formula (amountA reserveA reserveB : Fraction) :
  denominator amountA <> 0 ->
  denominator reserveA <> 0 ->
  denominator reserveB <> 0 ->
  ~ Fval reserveB == 0 ->
  Fval (quote amountA reserveA reserveB)
  == Fval amountA * Fval reserveA / Fval reserveB
  /\ quotient (quote amountA reserveA reserveB)
     = Ok (Qtruncate (Fval amountA * Fval reserveA / Fval reserveB)).
Proof.
  intros Ha HA HB Hnz.
  assert (Hv : Fval (quote amountA reserveA reserveB)
               == Fval amountA * Fval reserveA / Fval reserveB).
  { unfold quote. now rewrite Fval_divide, Fval_multiply. }
  split; [exact Hv|].
  assert (Hn : numerator reserveB <> 0).
  { intros E. apply Hnz. unfold Fval. rewrite E. reflexivity. }
  assert (Hd : denominator (quote amountA reserveA reserveB) <> 0).
  { unfold quote, divide, multiply. simpl. nia. }
  rewrite (quotient_defined _ Hd), <- (Qtruncate_Fval _ Hd).
  f_equal. now apply Qtruncate_comp.
Qed.

Lemma quote_formula_witness :
  Fval (quote (fromInt 100) (fromInt 2000) (fromInt 1000))
  == Fval (fromInt 100) * Fval (fromInt 2000) / Fval (fromInt 1000)
  /\ quotient (quote (fromInt 100) (fromInt 2000) (fromInt 1000))
     = Ok (Qtruncate (Fval (fromInt 100) * Fval (fromInt 2000)
                      / Fval (fromInt 1000))).
Proof.
  apply (quote_formula (fromInt 100) (fromInt 2000) (fromInt 1000));
    simpl; try lia.
  intros E; vm_compute in E; discriminate E.
Defined.

Section RouterProperties.

Context `{AddressValidation}.

(** ** Swap encoding *)

(** What a returned triple looks like. *)
Lemma swapCallParameters_Ok_inv (now : Z) (trade : Trade)
        (options : TradeOptions) (sp : SwapParameters) :
  swapCallParameters now trade options = Ok sp ->
  exists to amountIn amountOut,
    validateAndParseAddress (recipient options) = Ok to
    /\ toHex (maximumAmountIn trade (allowedSlippage options)) = Ok amountIn
    /\ toHex (minimumAmountOut trade (allowedSlippage options))
       = Ok amountOut
    /\ swapTable (tradeType trade)
                 (isNative (currency (inputAmount trade)))
                 (isNative (currency (outputAmount trade)))
                 (Boolean (feeOnTransfer options))
                 amountIn amountOut
                 (map address (route_path trade))
                 to (deadlineHex now (expiry options))
       = Some sp
    /\ value sp = (if isNative (currency (inputAmount trade))
                   then amountIn else "0x0").
Proof.
  unfold swapCallParameters. intros Hrun. unbind Hrun.
  apply invariant_Ok_inv in E.
  exists a1, a2, a3. repeat split; try reflexivity.
  - destruct (tradeType trade),
      (isNative (currency (inputAmount trade))),
      (isNative (currency (outputAmount trade))),
      (Boolean (feeOnTransfer options));
      try discriminate E; cbn in Hrun |- *;
      first [ discriminate Hrun | now inversion Hrun ].
  - destruct (tradeType trade),
      (isNative (currency (inputAmount trade))),
      (isNative (currency (outputAmount trade))),
      (Boolean (feeOnTransfer options));
      try discriminate E; cbn in Hrun |- *;
      first [ discriminate Hrun | now inversion Hrun ].
Qed.

(** When the call throws and when it returns. *)
Lemma swapCallParameters_outcome (now : Z) (trade : Trade)
        (options : TradeOptions) :
  denominator (maximumAmountIn trade (allowedSlippage options)) <> 0 ->
  denominator (minimumAmountOut trade (allowedSlippage options)) <> 0 ->
  ((exists e, swapCallParameters now trade options = Throw e)
   <-> swapRejected trade options)
  /\ (~ swapRejected trade options ->
      exists sp, swapCallParameters now trade options = Ok sp).
Proof.
  intros Hin Hout.
  unfold swapCallParameters, swapRejected, validateAndParseAddress.
  rewrite (toHex_defined _ Hin), (toHex_defined _ Hout).
  destruct (isNative (currency (inputAmount trade))),
    (isNative (currency (outputAmount trade))),
    (expiry options) as [ttl|deadline],
    (parseAddress (recipient options)),
    (tradeType trade),
    (Boolean (feeOnTransfer options));
    cbn;
    try (destruct (Z.ltb_spec 0 ttl); cbn);
    (split;
     [ split;
       [ intros [e He]; try discriminate He;
         first [ left; split; reflexivity
               | right; left; eexists; split; [reflexivity | lia]
               | right; right; left; split; reflexivity
               | right; right; right; reflexivity ]
       | intros [[A B]|[[t [A B]]|[[A B]|A]]];
         try discriminate; try (inversion A; lia);
         eexists; reflexivity ]
     | intros Hn; try (eexists; reflexivity); exfalso; apply Hn;
       first [ left; split; reflexivity
             | right; left; eexists; split; [reflexivity | lia]
             | right; right; left; split; reflexivity
             | right; right; right; reflexivity ] ]).
Qed.

(** C4: for every trade and valid options (none of the rejections
    applies), [swapCallParameters] returns the row of the specification's
    table selected by (tradeType, etherIn, etherOut, fee-on-transfer),
    filled with the hex of the slippage-adjusted amounts, the path, the
    validated recipient and the deadline; its value is amountIn's hex
    for a native input and the zero sentinel otherwise. *)
Theorem swapCallParameters_table (now : Z) (trade : Trade)
        (options : TradeOptions) :
  denominator (maximumAmountIn trade (allowedSlippage options)) <> 0 ->
  denominator (minimumAmountOut trade (allowedSlippage options)) <> 0 ->
  ~ swapRejected trade options ->
  exists sp to amountIn amountOut,
    swapCallParameters now trade options = Ok sp
    /\ validateAndParseAddress (recipient options) = Ok to
    /\ toHex (maximumAmountIn trade (allowedSlippage options)) = Ok amountIn
    /\ toHex (minimumAmountOut trade (allowedSlippage options))
       = Ok amountOut
    /\ swapTable (tradeType trade)
                 (isNative (currency (inputAmount trade)))
                 (isNative (currency (outputAmount trade)))
                 (Boolean (feeOnTransfer options))
                 amountIn amountOut
                 (map address (route_path trade))
                 to (deadlineHex now (expiry options))
       = Some sp
    /\ value sp = (if isNative (currency (inputAmount trade))
                   then amountIn else "0x0").
Proof.
  intros Hin Hout Hvalid.
  destruct (swapCallParameters_outcome now trade options Hin Hout)
    as [_ Hruns].
  destruct (Hruns Hvalid) as [sp Hsp].
  destruct (swapCallParameters_Ok_inv now trade options sp Hsp)
    as (to & amountIn & amountOut & Hrest).
  exists sp, to, amountIn, amountOut. split; [exact Hsp | exact Hrest].
Qed.

(** C5: [swapCallParameters] throws exactly when both currencies are
    native, or a relative ttl is supplied and is not positive, or
    fee-on-transfer is requested for an exact-output trade, or the
    recipient fails address validation; on every other input it returns
    a triple.  (The slippage-adjusted amounts are currency amounts, whose
    denominators are never zero.) *)
Theorem swapCallParameters_fails_iff (now : Z) (trade : Trade)
        (options : TradeOptions) :
  denominator (maximumAmountIn trade (allowedSlippage options)) <> 0 ->
  denominator (minimumAmountOut trade (allowedSlippage options)) <> 0 ->
  ((exists e, swapCallParameters now trade options = Throw e)
   <-> swapRejected trade options)
  /\ (~ swapRejected trade options ->
      exists sp, swapCallParameters now trade options = Ok sp).
Proof. apply swapCallParameters_outcome. Qed.

(** ** Remove-liquidity encoding *)

Lemma removeLiquidityCall_value (pair : Pair) (ether0 ether1 : bool)
      (l a b : Z) (to deadline : string) :
  value (removeLiquidityCall pair ether0 ether1 l a b to deadline) = "0x0".
Proof. unfold removeLiquidityCall. now destruct ether0, ether1. Qed.

(** C10: every triple returned by [removeCallParameters] carries the zero
    sentinel ["0x0"] as its value, also when one of the tokens is native
    and [removeLiquidityETH] is the method; [addCallParameters], by
    contrast, puts the native side's desired amount into the value. *)
Theorem removeCallParameters_value (now : Z) (pair : Pair)
        (tokenA tokenB : Currency) (totalSupply balance decreasePercent : Z)
        (options : TradeOptions) (sp : SwapParameters) :
  removeCallParameters now pair tokenA tokenB totalSupply balance
                       decreasePercent options = Ok sp ->
  value sp = "0x0"
  /\ (isNative tokenA || isNative tokenB = true ->
      methodName sp = "removeLiquidityETH")
  /\ (forall st to deadline,
         value (addLiquidityCall pair true false st to deadline)
         = JSBI.toString (amountADesired st)
         /\ value (addLiquidityCall pair false true st to deadline)
            = JSBI.toString (amountBDesired st)).
Proof.
  unfold removeCallParameters. intros Hrun. unbind Hrun.
  inversion Hrun; subst sp; clear Hrun.
  split; [apply removeLiquidityCall_value|].
  split; [|intros; split; reflexivity].
  unfold removeLiquidityCall.
  destruct (isNative tokenA), (isNative tokenB); cbn;
    intros; try reflexivity; discriminate.
Qed.

End RouterProperties.

(** ** Rounding to a JavaScript number *)

Module JSNumberFacts.
Import JSNumber.

Lemma roundAt_between (e n : Z) :
  0 <= e -> 0 <= n ->
  n / 2 ^ e * 2 ^ e <= roundAt e n <= (n / 2 ^ e + 1) * 2 ^ e.
Proof.
  intros He Hn. unfold roundAt.
  assert (HP : 0 < 2 ^ e) by (apply Z.pow_pos_nonneg; lia).
  destruct (2 ^ e <? 2 * (n mod 2 ^ e));
    [| destruct (2 * (n mod 2 ^ e) <? 2 ^ e);
       [| destruct (Z.odd (n / 2 ^ e))]]; nia.
Qed.

Lemma roundAt_mono (e n m : Z) :
  0 <= e -> 0 <= n -> n <= m -> roundAt e n <= roundAt e m.
Proof.
  intros He Hn Hnm.
  assert (HP : 0 < 2 ^ e) by (apply Z.pow_pos_nonneg; lia).
  assert (Hq : n / 2 ^ e <= m / 2 ^ e) by (apply Z.div_le_mono; lia).
  destruct (Z.eq_dec (n / 2 ^ e) (m / 2 ^ e)) as [E|E].
  - assert (Hr : n mod 2 ^ e <= m mod 2 ^ e).
    { pose proof (Z.div_mod n (2 ^ e)). pose proof (Z.div_mod m (2 ^ e)).
      rewrite E in *. lia. }
    unfold roundAt. rewrite E.
    destruct (Z.ltb_spec (2 ^ e) (2 * (n mod 2 ^ e)));
      destruct (Z.ltb_spec (2 ^ e) (2 * (m mod 2 ^ e)));
      destruct (Z.ltb_spec (2 * (n mod 2 ^ e)) (2 ^ e));
      destruct (Z.ltb_spec (2 * (m mod 2 ^ e)) (2 ^ e));
      destruct (Z.odd (m / 2 ^ e)); nia.
  - pose proof (roundAt_between e n He Hn).
    pose proof (roundAt_between e m He ltac:(lia)).
    nia.
Qed.

(** For [n] of bit length beyond the precision, the exponent picked by
    [ofMagnitude] leaves a 53-bit significand. *)
Lemma significand_range (n : Z) :
  2 ^ precision <= n ->
  1 <= Z.log2 n - (precision - 1)
  /\ 2 ^ (precision - 1) <= n / 2 ^ (Z.log2 n - (precision - 1))
     < 2 ^ precision.
Proof.
  unfold precision. intros Hn.
  set (e := Z.log2 n - (53 - 1)).
  assert (Hpos : 0 < n) by (pose proof (Z.pow_pos_nonneg 2 53); lia).
  destruct (Z.log2_spec n Hpos) as [Hlo Hhi].
  assert (Hk : 53 <= Z.log2 n).
  { apply Z.log2_le_pow2; lia. }
  assert (He : 1 <= e) by (unfold e; lia).
  split; [exact He|].
  assert (HP : 0 < 2 ^ e) by (apply Z.pow_pos_nonneg; lia).
  assert (E1 : 2 ^ Z.log2 n = 2 ^ (53 - 1) * 2 ^ e).
  { rewrite <- Z.pow_add_r by lia. f_equal. unfold e. lia. }
  assert (E2 : 2 ^ Z.succ (Z.log2 n) = 2 ^ 53 * 2 ^ e).
  { rewrite <- Z.pow_add_r by lia. f_equal. unfold e. lia. }
  split.
  - apply Z.div_le_lower_bound; lia.
  - apply Z.div_lt_upper_bound; lia.
Qed.

Lemma roundAt_range (n : Z) :
  2 ^ precision <= n ->
  2 ^ Z.log2 n <= roundAt (Z.log2 n - (precision - 1)) n
  <= 2 ^ (Z.log2 n + 1).
Proof.
  intros Hn. destruct (significand_range n Hn) as [He [Hlo Hhi]].
  set (e := Z.log2 n - (precision - 1)) in *.
  assert (Hpos : 0 <= n) by (pose proof (Z.pow_pos_nonneg 2 precision);
                             unfold precision in *; lia).
  pose proof (roundAt_between e n ltac:(lia) Hpos) as [Rlo Rhi].
  assert (HP : 0 < 2 ^ e) by (apply Z.pow_pos_nonneg; lia).
  assert (E1 : 2 ^ Z.log2 n = 2 ^ (precision - 1) * 2 ^ e).
  { rewrite <- Z.pow_add_r by (unfold precision; lia).
    f_equal. unfold e. lia. }
  assert (E2 : 2 ^ (Z.log2 n + 1) = 2 ^ precision * 2 ^ e).
  { rewrite <- Z.pow_add_r by (unfold precision; lia).
    f_equal. unfold e. lia. }
  rewrite E1, E2. split; nia.
Qed.

Lemma ofMagnitude_nonneg (n : Z) : 0 <= n -> 0 <= ofMagnitude n.
Proof.
  intros Hn. unfold ofMagnitude.
  destruct (Z.ltb_spec n (2 ^ precision)); [exact Hn|].
  pose proof (roundAt_range n ltac:(assumption)) as [Rlo _].
  pose proof (Z.pow_pos_nonneg 2 (Z.log2 n) ltac:(lia)
                               (Z.log2_nonneg n)).
  unfold infinity. apply Z.min_glb; [now vm_compute | lia].
Qed.

Lemma ofMagnitude_mono (n m : Z) :
  0 <= n -> n <= m -> ofMagnitude n <= ofMagnitude m.
Proof.
  intros Hn Hnm. unfold ofMagnitude.
  destruct (Z.ltb_spec n (2 ^ precision)) as [Ln|Ln];
    destruct (Z.ltb_spec m (2 ^ precision)) as [Lm|Lm]; try lia.
  - pose proof (roundAt_range m Lm) as [Rlo _].
    assert (2 ^ precision <= 2 ^ Z.log2 m).
    { apply Z.pow_le_mono_r; [lia|].
      apply Z.log2_le_pow2; unfold precision in *; lia. }
    apply Z.min_glb; [|lia].
    unfold infinity. transitivity (2 ^ precision); [lia|].
    now vm_compute.
  - apply Z.min_le_compat_l.
    assert (Hlog : Z.log2 n <= Z.log2 m) by (apply Z.log2_le_mono; lia).
    destruct (Z.eq_dec (Z.log2 n) (Z.log2 m)) as [E|E].
    + rewrite E. apply roundAt_mono; try lia.
      destruct (significand_range m Lm). lia.
    + pose proof (roundAt_range n Ln) as [_ Rhi].
      pose proof (roundAt_range m Lm) as [Rlo _].
      assert (2 ^ (Z.log2 n + 1) <= 2 ^ Z.log2 m)
        by (apply Z.pow_le_mono_r; lia).
      lia.
Qed.

Lemma ofInteger_mono (x y : Z) : x <= y -> ofInteger x <= ofInteger y.
Proof.
  intros Hxy. unfold ofInteger.
  destruct (Z.ltb_spec x 0); destruct (Z.ltb_spec y 0); try lia.
  - pose proof (ofMagnitude_mono (- y) (- x)). lia.
  - pose proof (ofMagnitude_nonneg (- x)).
    pose proof (ofMagnitude_nonneg y). lia.
  - now apply ofMagnitude_mono.
Qed.

Lemma ofMagnitude_exact (n : Z) :
  0 <= n <= 2 ^ precision -> ofMagnitude n = n.
Proof.
  intros [Hn Hle]. unfold ofMagnitude.
  destruct (Z.ltb_spec n (2 ^ precision)); [reflexivity|].
  assert (E : n = 2 ^ precision) by lia.
  rewrite E. now vm_compute.
Qed.

Lemma ofInteger_exact (x : Z) :
  - 2 ^ precision <= x <= 2 ^ precision -> ofInteger x = x.
Proof.
  intros Hx. unfold ofInteger.
  destruct (Z.ltb_spec x 0).
  - rewrite ofMagnitude_exact; lia.
  - apply ofMagnitude_exact; lia.
Qed.

End JSNumberFacts.

Lemma Number_mono (x y : Z) : x <= y -> Number x <= Number y.
Proof. apply JSNumberFacts.ofInteger_mono. Qed.

Lemma Number_exact (x : Z) : - 2 ^ 53 <= x <= 2 ^ 53 -> Number x = x.
Proof. apply JSNumberFacts.ofInteger_exact. Qed.

(** ** Slippage-adjusted minimums *)

(** Whatever the denominator of the tolerance, [slippageAdjusted] is the
    pair (d, d + n) for the tolerance n / d. *)
Lemma slippageAdjustedOf_pair (options : TradeOptions) :
  slippageAdjustedOf options
  = mkFraction (denominator (allowedSlippage options))
               (denominator (allowedSlippage options)
                + numerator (allowedSlippage options)).
Proof.
  unfold slippageAdjustedOf, add, invert, fromInt, ONE.
  cbn [numerator denominator].
  destruct (Z.eqb_spec 1 (denominator (allowedSlippage options))) as [E|E];
    cbn [numerator denominator]; f_equal; lia.
Qed.

Lemma Fval_slippageAdjustedOf (options : TradeOptions) :
  denominator (allowedSlippage options) <> 0 ->
  Fval (slippageAdjustedOf options)
  == 1 / (1 + Fval (allowedSlippage options)).
Proof.
  intros Hd. unfold slippageAdjustedOf.
  rewrite Fval_invert, Fval_add by (simpl; lia).
  rewrite Fval_fromInt. unfold ONE, Qdiv. now rewrite Qmult_1_l.
Qed.

Lemma minimumFor_quot (slippageAdjusted : Fraction) (desired : Z) :
  denominator slippageAdjusted <> 0 ->
  minimumFor slippageAdjusted desired
  = Ok (Z.quot (numerator slippageAdjusted * desired
                + denominator slippageAdjusted)
               (denominator slippageAdjusted)).
Proof.
  intros Hd. unfold minimumFor, add, multiply, fromInt.
  cbn [numerator denominator].
  destruct (Z.eqb_spec (denominator slippageAdjusted * 1) 1) as [E|E];
    rewrite quotient_defined by (cbn [numerator denominator]; lia);
    cbn [numerator denominator]; do 2 f_equal; lia.
Qed.

Lemma minimumFor_truncate (slippageAdjusted : Fraction) (desired : Z) :
  denominator slippageAdjusted <> 0 ->
  minimumFor slippageAdjusted desired
  = Ok (Qtruncate (Fval slippageAdjusted * inject_Z desired + 1)).
Proof.
  intros Hd. rewrite (minimumFor_quot _ _ Hd). f_equal.
  pose proof (Qtruncate_Fval
                (mkFraction (numerator slippageAdjusted * desired
                             + denominator slippageAdjusted)
                            (denominator slippageAdjusted)) Hd) as E.
  cbn [numerator denominator] in E. rewrite <- E.
  apply Qtruncate_comp. unfold Fval. cbn [numerator denominator].
  rewrite inject_Z_plus, inject_Z_mult. field. now apply inject_Z_nonzero.
Qed.

(** For a tolerance n / d with 0 <= n and 0 < d and a non-negative desired
    amount, the minimum is floor (d * desired / (d + n)) + 1. *)
Lemma minimumFor_floor (options : TradeOptions) (desired : Z) :
  0 <= numerator (allowedSlippage options) ->
  0 < denominator (allowedSlippage options) ->
  0 <= desired ->
  minimumFor (slippageAdjustedOf options) desired
  = Ok (denominator (allowedSlippage options) * desired
        / (denominator (allowedSlippage options)
           + numerator (allowedSlippage options)) + 1).
Proof.
  intros Hn Hd Hx. rewrite slippageAdjustedOf_pair.
  rewrite minimumFor_quot by (cbn [numerator denominator]; lia).
  cbn [numerator denominator]. f_equal.
  rewrite Z.quot_div_nonneg by nia.
  rewrite <- Z.div_add by lia. f_equal. lia.
Qed.

Lemma minimumFor_le_succ (options : TradeOptions) (desired m : Z) :
  0 <= numerator (allowedSlippage options) ->
  0 < denominator (allowedSlippage options) ->
  0 <= desired ->
  minimumFor (slippageAdjustedOf options) desired = Ok m ->
  m <= desired + 1.
Proof.
  intros Hn Hd Hx. rewrite minimumFor_floor by assumption.
  intros E. inversion E; subst m; clear E.
  apply Z.add_le_mono_r. apply Z.lt_succ_r.
  apply Z.div_lt_upper_bound; nia.
Qed.

(** C7, as stated, fails: at zero tolerance the minimum for a desired amount
    of 1000 is 1001, and at a tolerance of one percent the minimum for a
    desired amount of 50 is 50; neither is strictly below the desired
    amount. *)
Lemma minimum_not_below_desired :
  minimumFor (slippageAdjustedOf (Sample.options (mkFraction 0 100))) 1000
  = Ok 1001
  /\ ~ 1001 < 1000
  /\ minimumFor (slippageAdjustedOf (Sample.options (mkFraction 1 100))) 50
     = Ok 50
  /\ ~ 50 < 50.
Proof. repeat split; try reflexivity; lia. Qed.

(** C7 (amended): for a tolerance in [0, 1) and a positive desired amount,
    the initial minimum is floor (slippageAdjusted * desired) + 1; it is at
    most desired + 1, it equals desired + 1 at zero tolerance, and it is at
    most the desired amount (not strictly below it) when the tolerance is
    positive. *)
Theorem minimum_vs_desired (options : TradeOptions) (desired : Z) :
  0 <= numerator (allowedSlippage options) ->
  numerator (allowedSlippage options) < denominator (allowedSlippage options) ->
  0 < desired ->
  exists m,
    minimumFor (slippageAdjustedOf options) desired = Ok m
    /\ m = Qfloor (Fval (slippageAdjustedOf options) * inject_Z desired) + 1
    /\ m <= desired + 1
    /\ (numerator (allowedSlippage options) = 0 -> m = desired + 1)
    /\ (0 < numerator (allowedSlippage options) -> m <= desired).
Proof.
  intros Hn Hlt Hx.
  set (n := numerator (allowedSlippage options)) in *.
  set (d := denominator (allowedSlippage options)) in *.
  exists (d * desired / (d + n) + 1).
  split; [apply minimumFor_floor; fold n d; lia|].
  split.
  { f_equal. rewrite slippageAdjustedOf_pair. fold n d.
    rewrite (Zdiv_Qdiv (d * desired) (d + n)).
    apply Qfloor_comp. unfold Fval. cbn [numerator denominator].
    rewrite inject_Z_mult.
    field. apply inject_Z_nonzero. lia. }
  split; [|split].
  - apply Z.add_le_mono_r, Z.lt_succ_r, Z.div_lt_upper_bound; nia.
  - intros E. rewrite E, Z.add_0_r, Z.mul_comm, Z.div_mul by lia.
    reflexivity.
  - intros Hpos.
    assert (d * desired / (d + n) < desired)
      by (apply Z.div_lt_upper_bound; nia).
    lia.
Qed.

Lemma minimum_vs_desired_witness :
  exists m,
    minimumFor (slippageAdjustedOf (Sample.options (mkFraction 1 100))) 50
    = Ok m
    /\ m = Qfloor (Fval (slippageAdjustedOf
                           (Sample.options (mkFraction 1 100)))
                   * inject_Z 50) + 1
    /\ m <= 50 + 1
    /\ (numerator (allowedSlippage (Sample.options (mkFraction 1 100))) = 0
        -> m = 50 + 1)
    /\ (0 < numerator (allowedSlippage (Sample.options (mkFraction 1 100)))
        -> m <= 50).
Proof.
  apply (minimum_vs_desired (Sample.options (mkFraction 1 100)) 50);
    simpl; lia.
Defined.

Lemma slippageAdjustedOf_defined (options : TradeOptions) :
  denominator (allowedSlippage options) <> 0 ->
  ~ 1 + Fval (allowedSlippage options) == 0 ->
  denominator (slippageAdjustedOf options) <> 0.
Proof.
  intros Hd Hnz. rewrite slippageAdjustedOf_pair. cbn [denominator].
  intros E. apply Hnz. unfold Fval.
  replace (numerator (allowedSlippage options))
    with (- denominator (allowedSlippage options)) by lia.
  rewrite inject_Z_opp. field. now apply inject_Z_nonzero.
Qed.

Lemma equalTo_zero (f : Fraction) :
  equalTo f (fromInt 0) = (numerator f =? 0).
Proof.
  unfold equalTo, fromInt. cbn [numerator denominator].
  now rewrite Z.mul_1_r, Z.mul_0_l.
Qed.

Lemma quotient_floor (f : Fraction) :
  0 <= numerator f -> 0 < denominator f ->
  quotient f = Ok (Qfloor (Fval f)).
Proof.
  intros Hn Hd. rewrite quotient_defined by lia.
  now rewrite Z.quot_div_nonneg, Qfloor_Fval by lia.
Qed.

(** ** Comparisons through [Number] *)




(** With non-negative amounts and positive reserves the two optimal amounts
    cannot both exceed their desired counterparts. *)
Lemma optimal_amounts_not_both_above
      (amount0 amount1 reserveA reserveB : Fraction)
      (aDesired bDesired aOptimal bOptimal : Z) :
  0 <= numerator amount0 -> 0 < denominator amount0 ->
  0 <= numerator amount1 -> 0 < denominator amount1 ->
  0 < numerator reserveA -> 0 < denominator reserveA ->
  0 < numerator reserveB -> 0 < denominator reserveB ->
  quotient amount0 = Ok aDesired ->
  quotient amount1 = Ok bDesired ->
  quotient (quote amount0 reserveB reserveA) = Ok bOptimal ->
  quotient (quote amount1 reserveA reserveB) = Ok aOptimal ->
  ~ (bOptimal > bDesired /\ aOptimal > aDesired).
Proof.
  intros Hn0 Hd0 Hn1 Hd1 HnA HdA HnB HdB Ha Hb Hbo Hao [Hgb Hga].
  apply quotient_Ok_inv in Ha, Hb, Hbo, Hao.
  destruct Ha as [_ Ha], Hb as [_ Hb], Hbo as [_ Hbo], Hao as [_ Hao].
  unfold quote, divide, multiply in Hbo, Hao.
  cbn [numerator denominator] in Hbo, Hao.
  destruct amount0 as [n0 d0], amount1 as [n1 d1],
    reserveA as [nA dA], reserveB as [nB dB].
  cbn [numerator denominator] in *.
  set (X := n0 * nB * dA) in *. set (Y := d0 * dB * nA) in *.
  set (U := n1 * nA * dB) in *. set (V := d1 * dA * nB) in *.
  assert (HY : 0 < Y) by (unfold Y; repeat apply Z.mul_pos_pos; lia).
  assert (HV : 0 < V) by (unfold V; repeat apply Z.mul_pos_pos; lia).
  assert (HX : 0 <= X) by (unfold X; repeat apply Z.mul_nonneg_nonneg; lia).
  assert (HU : 0 <= U) by (unfold U; repeat apply Z.mul_nonneg_nonneg; lia).
  rewrite Z.quot_div_nonneg in Ha, Hb, Hbo, Hao by lia.
  assert (E1 : X * d1 = V * n0) by (unfold X, V; ring).
  assert (E2 : Y * n1 = U * d0) by (unfold Y, U; ring).
  pose proof (Z.mul_div_le X Y HY) as B1.
  pose proof (Z.mul_succ_div_gt n1 d1 Hd1) as B2.
  pose proof (Z.mul_div_le U V HV) as A1.
  pose proof (Z.mul_succ_div_gt n0 d0 Hd0) as A2.
  rewrite <- Hbo in B1. rewrite <- Hb in B2.
  rewrite <- Hao in A1. rewrite <- Ha in A2.
  assert (S1 : Y * n1 < X * d1).
  { assert (Y * n1 < Y * (d1 * Z.succ bDesired))
      by (apply Z.mul_lt_mono_pos_l; lia).
    assert (Y * Z.succ bDesired <= Y * bOptimal)
      by (apply Z.mul_le_mono_nonneg_l; lia).
    assert (d1 * (Y * Z.succ bDesired) <= d1 * X)
      by (apply Z.mul_le_mono_nonneg_l; lia).
    lia. }
  assert (S2 : V * n0 < U * d0).
  { assert (V * n0 < V * (d0 * Z.succ aDesired))
      by (apply Z.mul_lt_mono_pos_l; lia).
    assert (V * Z.succ aDesired <= V * aOptimal)
      by (apply Z.mul_le_mono_nonneg_l; lia).
    assert (d0 * (V * Z.succ aDesired) <= d0 * U)
      by (apply Z.mul_le_mono_nonneg_l; lia).
    lia. }
  lia.
Qed.

Lemma Ok_inj {A : Type} (a b : A) : Ok a = Ok b -> a = b.
Proof. intros E. now inversion E. Qed.

Lemma scaled_floor_le (n d a b : Z) :
  0 <= n -> 0 < d -> 0 <= a -> 0 < b -> a <= b ->
  0 <= n * a / (d * b) <= n / d.
Proof.
  intros Hn Hd Ha Hb Hab. split.
  - apply Z.div_pos; nia.
  - apply floor_le_of_cross; nia.
Qed.

(** Removing a share of at most the whole supply from a reserve that is a
    valid amount: no product overflows and the minimum stays within the
    reserve. *)
Lemma removeMinimum_within_share (reserve : Fraction)
      (totalSupply balance decreasePercent : Z) (options : TradeOptions) :
  0 <= numerator reserve -> 0 < denominator reserve ->
  numerator reserve / denominator reserve <= MaxUint256 ->
  0 <= balance -> 0 <= decreasePercent -> 0 < totalSupply ->
  balance * decreasePercent <= 100 * totalSupply ->
  0 <= numerator (allowedSlippage options) ->
  0 < denominator (allowedSlippage options) ->
  exists m,
    removeMinimum reserve
                  (removePercentOf totalSupply balance decreasePercent)
                  (slippageAdjustedOf options) = Ok m
    /\ 0 <= m <= numerator reserve / denominator reserve.
Proof.
  intros Hrn Hrd Hmax Hb Hp Ht Hshare Hsn Hsd.
  rewrite slippageAdjustedOf_pair.
  set (pn := numerator (allowedSlippage options)) in *.
  set (pd := denominator (allowedSlippage options)) in *.
  set (A := balance * decreasePercent * 1 * 1).
  set (B := 1 * 1 * 100 * totalSupply).
  assert (HA : 0 <= A) by (unfold A; nia).
  assert (HB : 0 < B) by (unfold B; lia).
  assert (HAB : A <= B) by (unfold A, B; lia).
  assert (H1 : 0 <= numerator reserve * A / (denominator reserve * B)
               <= numerator reserve / denominator reserve)
    by (apply scaled_floor_le; assumption).
  assert (H2 : 0 <= numerator reserve * (A * pd)
                    / (denominator reserve * (B * (pd + pn)))
               <= numerator reserve / denominator reserve)
    by (apply scaled_floor_le; nia).
  assert (D1 : 0 < denominator reserve * B) by nia.
  assert (D2 : 0 < denominator reserve * B * (pd + pn)) by nia.
  assert (N1 : 0 <= numerator reserve * A) by nia.
  assert (N2 : 0 <= numerator reserve * A * pd) by nia.
  rewrite removeMinimum_Ok;
    unfold removePercentOf, liquidityOf, multiply, divide, fromInt;
    cbn [numerator denominator]; fold A B.
  - rewrite quotient_defined by (cbn [denominator]; lia).
    cbn [numerator denominator].
    rewrite Z.quot_div_nonneg by lia.
    eexists. split; [reflexivity|].
    replace (numerator reserve * A * pd)
      with (numerator reserve * (A * pd)) by ring.
    replace (denominator reserve * B * (pd + pn))
      with (denominator reserve * (B * (pd + pn))) by ring.
    exact H2.
  - lia.
  - rewrite Z.quot_div_nonneg by lia. lia.
  - lia.
  - rewrite Z.quot_div_nonneg by lia.
    replace (numerator reserve * A * pd)
      with (numerator reserve * (A * pd)) by ring.
    replace (denominator reserve * B * (pd + pn))
      with (denominator reserve * (B * (pd + pn))) by ring.
    lia.
Qed.

(** What a removal minimum is when the call gets that far, on non-negative
    inputs. *)
Lemma removeMinimum_Ok_floor (reserve : Fraction)
      (totalSupply balance decreasePercent : Z) (options : TradeOptions)
      (m : Z) :
  0 <= numerator reserve -> 0 < denominator reserve ->
  0 <= balance -> 0 <= decreasePercent -> 0 < totalSupply ->
  0 <= numerator (allowedSlippage options) ->
  0 < denominator (allowedSlippage options) ->
  removeMinimum reserve
                (removePercentOf totalSupply balance decreasePercent)
                (slippageAdjustedOf options) = Ok m ->
  m = Qfloor (Fval reserve
              * Fval (removePercentOf totalSupply balance decreasePercent)
              * Fval (slippageAdjustedOf options)).
Proof.
  intros Hrn Hrd Hb Hp Ht Hsn Hsd Hrun.
  apply removeMinimum_Ok_inv in Hrun.
  rewrite quotient_floor in Hrun.
  - apply Ok_inj in Hrun. rewrite <- Hrun.
    apply Qfloor_comp. now rewrite !Fval_multiply.
  - rewrite slippageAdjustedOf_pair.
    unfold removePercentOf, liquidityOf, multiply, divide, fromInt.
    cbn [numerator denominator].
    repeat apply Z.mul_nonneg_nonneg; lia.
  - rewrite slippageAdjustedOf_pair.
    unfold removePercentOf, liquidityOf, multiply, divide, fromInt.
    cbn [numerator denominator].
    repeat apply Z.mul_pos_pos; lia.
Qed.

(** C8, as stated for every call, fails where the call throws: with
    reserve0 = 2^255, a total supply of 1 and a balance of 4 removed at
    100%, the product reserve0 * removePercent exceeds 2^256 - 1 and
    [removeCallParameters] throws AMOUNT; no minimum is emitted, although
    floor (reserve0 * removePercent * slippageAdjusted) is a number. *)
Lemma removal_minimum_not_emitted :
  let options := Sample.options (mkFraction 1 100) in
  removeCallParameters (H := Sample.validation) 0 Sample.hugePool
                       Sample.erc20 Sample.erc20 1 4 100 options
  = Throw (InvariantFailed "AMOUNT")
  /\ Qfloor (Fval (reserve0 Sample.hugePool) * Fval (removePercentOf 1 4 100)
             * Fval (slippageAdjustedOf options))
     = 229291265816467713710041554472649322481722741912159532751401156451313127999873.
Proof. cbv zeta. split; vm_compute; reflexivity. Qed.

Section LiquidityProperties.

Context `{AddressValidation}.

(** ** Add-liquidity on an uninitialized pool *)

(** C6: on an uninitialized pool (both reserves equal to zero) a valid
    call of [addCallParameters] emits the desired amounts unchanged and
    the minimums trunc (slippageAdjusted * desired + 1) with
    slippageAdjusted = 1 / (1 + allowedSlippage); at zero tolerance and
    desired amounts 1000 and 2000 the minimums are 1001 and 2001. *)
Theorem addCallParameters_uninitialized (now : Z) (pair : Pair)
        (amount0 amount1 : CurrencyAmount) (options : TradeOptions)
        (to : string) :
  isNative (currency amount0) && isNative (currency amount1) = false ->
  ttlOk (expiry options) = true ->
  validateAndParseAddress (recipient options) = Ok to ->
  equalTo (reserve0 pair) (fromInt 0) = true ->
  equalTo (reserve1 pair) (fromInt 0) = true ->
  denominator amount0 <> 0 ->
  denominator amount1 <> 0 ->
  denominator (allowedSlippage options) <> 0 ->
  ~ 1 + Fval (allowedSlippage options) == 0 ->
  let slippageAdjusted := (1 / (1 + Fval (allowedSlippage options)))%Q in
  let aDesired := Qtruncate (Fval amount0) in
  let bDesired := Qtruncate (Fval amount1) in
  addCallParameters now pair amount0 amount1 options
  = Ok (addLiquidityCall
          pair (isNative (currency amount0)) (isNative (currency amount1))
          (mkAddAmounts
             aDesired bDesired
             (Qtruncate (slippageAdjusted * inject_Z aDesired + 1))
             (Qtruncate (slippageAdjusted * inject_Z bDesired + 1)))
          to (deadlineHex now (expiry options)))
  /\ (Fval (allowedSlippage options) == 0 ->
      aDesired = 1000 -> bDesired = 2000 ->
      addCallParameters now pair amount0 amount1 options
      = Ok (addLiquidityCall
              pair (isNative (currency amount0))
              (isNative (currency amount1))
              (mkAddAmounts 1000 2000 1001 2001)
              to (deadlineHex now (expiry options)))).
Proof.
  intros Hnative Httl Hto Hr0 Hr1 Hd0 Hd1 Hds Hnz sa aDesired bDesired.
  assert (Hsa : denominator (slippageAdjustedOf options) <> 0)
    by now apply slippageAdjustedOf_defined.
  assert (Hrun :
    addCallParameters now pair amount0 amount1 options
    = Ok (addLiquidityCall
            pair (isNative (currency amount0))
            (isNative (currency amount1))
            (mkAddAmounts
               aDesired bDesired
               (Qtruncate (sa * inject_Z aDesired + 1))
               (Qtruncate (sa * inject_Z bDesired + 1)))
            to (deadlineHex now (expiry options)))).
  { unfold addCallParameters. rewrite Hnative, Httl, Hto. cbn [negb invariant bind].
    unfold initialAmounts.
    rewrite (quotient_defined amount0 Hd0), (quotient_defined amount1 Hd1).
    cbn [bind].
    rewrite !(minimumFor_truncate _ _ Hsa). cbn [bind].
    unfold reconcile. rewrite Hr0, Hr1. cbn [andb negb bind].
    assert (Esa : forall x,
               Qtruncate (Fval (slippageAdjustedOf options) * inject_Z x + 1)
               = Qtruncate (sa * inject_Z x + 1)).
    { intros x. apply Qtruncate_comp.
      now rewrite (Fval_slippageAdjustedOf options Hds). }
    unfold aDesired, bDesired.
    rewrite !Qtruncate_Fval by assumption.
    now rewrite !Esa. }
  split; [exact Hrun|].
  intros Hzero Ea Eb. rewrite Hrun, Ea, Eb.
  assert (E1 : Qtruncate (sa * inject_Z 1000 + 1) = 1001).
  { apply (Qtruncate_comp _ (1001 # 1)). unfold sa. rewrite Hzero.
    reflexivity. }
  assert (E2 : Qtruncate (sa * inject_Z 2000 + 1) = 2001).
  { apply (Qtruncate_comp _ (2001 # 1)). unfold sa. rewrite Hzero.
    reflexivity. }
  now rewrite E1, E2.
Qed.

(** ** Remove-liquidity amounts *)

(** C8 (amended): on non-negative balance, whole percentage, reserves and
    tolerance with a positive total supply, liquidity =
    balance * decreasePercent / 100 and removePercent =
    liquidity / totalSupply as rationals; every call of
    [removeCallParameters] that returns emits the liquidity floor
    (liquidity) and the minimums
    floor (reserve * removePercent * slippageAdjusted), nothing added; the
    call does return when the options are valid, each reserve is at most
    2^256 - 1 and balance * decreasePercent <= 100 * totalSupply.  With
    decreasePercent = 100 and balance = totalSupply, liquidity is the
    balance, removePercent is 1 and each minimum is
    floor (reserve * slippageAdjusted). *)
Theorem removeCallParameters_amounts (now : Z) (pair : Pair)
        (tokenA tokenB : Currency) (totalSupply balance decreasePercent : Z)
        (options : TradeOptions) :
  0 <= balance -> 0 <= decreasePercent -> 0 < totalSupply ->
  0 <= numerator (reserve0 pair) -> 0 < denominator (reserve0 pair) ->
  0 <= numerator (reserve1 pair) -> 0 < denominator (reserve1 pair) ->
  0 <= numerator (allowedSlippage options) ->
  0 < denominator (allowedSlippage options) ->
  let liquidity := liquidityOf balance decreasePercent in
  let removePercent := removePercentOf totalSupply balance decreasePercent in
  let slippageAdjusted := slippageAdjustedOf options in
  Fval liquidity
  == inject_Z balance * inject_Z decreasePercent / inject_Z 100
  /\ Fval removePercent == Fval liquidity / inject_Z totalSupply
  /\ Fval slippageAdjusted == 1 / (1 + Fval (allowedSlippage options))
  /\ (forall sp,
         removeCallParameters now pair tokenA tokenB totalSupply balance
                              decreasePercent options = Ok sp ->
         exists to,
           validateAndParseAddress (recipient options) = Ok to
           /\ sp = removeLiquidityCall
                     pair (isNative tokenA) (isNative tokenB)
                     (Qfloor (Fval liquidity))
                     (Qfloor (Fval (reserve0 pair) * Fval removePercent
                              * Fval slippageAdjusted))
                     (Qfloor (Fval (reserve1 pair) * Fval removePercent
                              * Fval slippageAdjusted))
                     to (deadlineHex now (expiry options)))
  /\ (isNative tokenA && isNative tokenB = false ->
      ttlOk (expiry options) = true ->
      parseAddress (recipient options) <> None ->
      numerator (reserve0 pair) / denominator (reserve0 pair)
      <= MaxUint256 ->
      numerator (reserve1 pair) / denominator (reserve1 pair)
      <= MaxUint256 ->
      balance * decreasePercent <= 100 * totalSupply ->
      exists sp,
        removeCallParameters now pair tokenA tokenB totalSupply balance
                             decreasePercent options = Ok sp)
  /\ (decreasePercent = 100 -> balance = totalSupply ->
      Fval liquidity == inject_Z balance
      /\ Fval removePercent == 1
      /\ Qfloor (Fval (reserve0 pair) * Fval removePercent
                 * Fval slippageAdjusted)
         = Qfloor (Fval (reserve0 pair) * Fval slippageAdjusted)
      /\ Qfloor (Fval (reserve1 pair) * Fval removePercent
                 * Fval slippageAdjusted)
         = Qfloor (Fval (reserve1 pair) * Fval slippageAdjusted)).
Proof.
  intros Hb Hp Ht Hn0 Hd0 Hn1 Hd1 Hsn Hsd
         liquidity removePercent slippageAdjusted.
  assert (Hl : Fval liquidity
               == inject_Z balance * inject_Z decreasePercent
                  / inject_Z 100).
  { unfold liquidity, liquidityOf.
    now rewrite Fval_divide, Fval_multiply, !Fval_fromInt. }
  assert (Hr : Fval removePercent == Fval liquidity / inject_Z totalSupply).
  { unfold removePercent, removePercentOf.
    now rewrite Fval_divide, Fval_fromInt. }
  assert (Hlq : quotient liquidity = Ok (Qfloor (Fval liquidity))).
  { apply quotient_floor;
      unfold liquidity, liquidityOf, multiply, divide, fromInt;
      cbn [numerator denominator]; [|lia].
    repeat apply Z.mul_nonneg_nonneg; lia. }
  split; [exact Hl|]. split; [exact Hr|].
  split; [apply Fval_slippageAdjustedOf; lia|].
  split; [|split].
  - intros sp Hrun. unfold removeCallParameters in Hrun. unbind Hrun.
    exists a1. split; [first [exact E1 | reflexivity]|].
    apply Ok_inj in Hrun. subst sp.
    fold liquidity in E4. rewrite Hlq in E4. apply Ok_inj in E4. subst a4.
    rewrite (removeMinimum_Ok_floor _ _ _ _ _ _ Hn0 Hd0 Hb Hp Ht Hsn Hsd E2).
    rewrite (removeMinimum_Ok_floor _ _ _ _ _ _ Hn1 Hd1 Hb Hp Ht Hsn Hsd E3).
    reflexivity.
  - intros Hnative Httl Hparse Hmax0 Hmax1 Hshare.
    unfold removeCallParameters, validateAndParseAddress.
    rewrite Hnative, Httl. cbn [negb invariant bind].
    destruct (parseAddress (recipient options)) as [to|];
      [|contradiction]. cbn [bind].
    destruct (removeMinimum_within_share
                (reserve0 pair) totalSupply balance decreasePercent options)
      as (a & Ha & _); try assumption.
    destruct (removeMinimum_within_share
                (reserve1 pair) totalSupply balance decreasePercent options)
      as (b & Hb' & _); try assumption.
    rewrite Ha, Hb'. cbn [bind]. fold liquidity. rewrite Hlq. cbn [bind].
    eexists. reflexivity.
  - intros E100 Ebal.
    assert (Hl1 : Fval liquidity == inject_Z balance).
    { rewrite Hl, E100. field. }
    assert (Hr1 : Fval removePercent == 1).
    { rewrite Hr, Hl1, Ebal. field. apply inject_Z_nonzero. lia. }
    split; [exact Hl1|]. split; [exact Hr1|].
    split; apply Qfloor_comp; rewrite Hr1; ring.
Qed.

(** ** The unreconciled case of add-liquidity *)

Lemma initialAmounts_inv (slippageAdjusted : Fraction)
      (amount0 amount1 : CurrencyAmount) (st : AddAmounts) :
  initialAmounts slippageAdjusted amount0 amount1 = Ok st ->
  quotient amount0 = Ok (amountADesired st)
  /\ quotient amount1 = Ok (amountBDesired st)
  /\ minimumFor slippageAdjusted (amountADesired st) = Ok (amountAMin st)
  /\ minimumFor slippageAdjusted (amountBDesired st) = Ok (amountBMin st).
Proof.
  unfold initialAmounts. intros Hrun. unbind Hrun.
  inversion Hrun; subst st; cbn. auto.
Qed.




End LiquidityProperties.

(** ** Where the rounded comparisons are the exact ones *)

(** X19: within the range in which [Number] is exact (magnitudes up to
    2^53) the reconciliation of the source and the one with exact
    comparisons agree. *)
Lemma reconcile_exact_when_safe (pair : Pair)
      (amount0 amount1 : CurrencyAmount) (slippageAdjusted : Fraction)
      (st : AddAmounts) :
  let safe := fun x => - 2 ^ 53 <= x <= 2 ^ 53 in
  safe (amountADesired st) -> safe (amountBDesired st) ->
  safe (amountAMin st) -> safe (amountBMin st) ->
  (forall b, quotient (quote amount0 (reserve1 pair) (reserve0 pair)) = Ok b
             -> safe b) ->
  (forall a, quotient (quote amount1 (reserve0 pair) (reserve1 pair)) = Ok a
             -> safe a) ->
  reconcile pair amount0 amount1 slippageAdjusted st
  = reconcileExact pair amount0 amount1 slippageAdjusted st.
Proof.
  intros safe HaD HbD HaM HbM Hb Ha. subst safe. cbn beta in *.
  unfold reconcile, reconcileExact.
  destruct (negb (equalTo (reserve0 pair) (fromInt 0)
                  && equalTo (reserve1 pair) (fromInt 0))); [|reflexivity].
  destruct (quoteAmount amount0 (reserve1 pair) (reserve0 pair))
    as [optimalB|e] eqn:Eb; cbn [bind]; [|reflexivity].
  destruct (quoteAmount_quotient _ _ _ _ Eb) as [_ Qb]. rewrite Qb in Hb.
  destruct (quotient optimalB) as [b|e]; cbn [bind]; [|reflexivity].
  rewrite (Number_exact b), (Number_exact (amountBDesired st)),
    (Number_exact (amountBMin st)) by auto.
  destruct (b <=? amountBDesired st); [reflexivity|].
  destruct (quoteAmount amount1 (reserve0 pair) (reserve1 pair))
    as [optimalA|e] eqn:Ea; cbn [bind]; [|reflexivity].
  destruct (quoteAmount_quotient _ _ _ _ Ea) as [_ Qa]. rewrite Qa in Ha.
  destruct (quotient optimalA) as [a|e]; cbn [bind]; [|reflexivity].
  now rewrite (Number_exact a), (Number_exact (amountADesired st)),
    (Number_exact (amountAMin st)) by auto.
Qed.

(* ================================================================= *)
(** ** The encoders on sample inputs *)

(** C2: the amounts that [addCallParameters] and [removeCallParameters]
    place into [args] and [value] are decimal strings without the [0x]
    prefix, against the interface comments (arguments all hex encoded, value
    in hex) and unlike [swapCallParameters], whose amounts go through
    [toHex].  Adding 1000 wei of ether and 2000 units of a token to an empty
    pool at zero tolerance emits 2000, 2001, 1001 and the value 1000 in
    decimal; removing emits decimal amounts too; the swap sample emits hex,
    and a zero amount is rendered as the zero sentinel by [toHex]. *)
Theorem liquidity_amounts_are_decimal :
  addCallParameters (H := Sample.validation) 0 Sample.emptyPool
                    (Sample.raw Sample.ether 1000)
                    (Sample.raw Sample.erc20 2000)
                    (Sample.options (fromInt 0))
  = Ok (mkSwapParameters
          "addLiquidityETH"
          [Str "0x000000000000000000000000000000000000000b";
           Str "2000"; Str "2001"; Str "1001";
           Str "0x00000000000000000000000000000000000a11ce";
           Str "0x6553f100"]
          "1000")
  /\ isHexAmount "1000" = false
  /\ isHexAmount "2000" = false
  /\ isHexAmount "2001" = false
  /\ isHexAmount "1001" = false
  /\ isHexAmount "0x3e8" = true
  /\ removeCallParameters (H := Sample.validation) 0 Sample.evenPool
                          Sample.ether Sample.erc20 1000 1000 100
                          (Sample.options (mkFraction 1 100))
     = Ok (mkSwapParameters
             "removeLiquidityETH"
             [Str "0x000000000000000000000000000000000000000b";
              Str "1000"; Str "4950495049504950495049";
              Str "4950495049504950495049";
              Str "0x00000000000000000000000000000000000a11ce";
              Str "0x6553f100"]
             "0x0")
  /\ isHexAmount "4950495049504950495049" = false
  /\ swapCallParameters (H := Sample.validation) 0 Sample.trade
                        (Sample.options (mkFraction 1 100))
     = Ok (mkSwapParameters
             "swapExactETHForTokens"
             [Str "0x708";
              Arr ["0x000000000000000000000000000000000000000a";
                   "0x000000000000000000000000000000000000000b"];
              Str "0x00000000000000000000000000000000000a11ce";
              Str "0x6553f100"]
             "0xde0b6b3a7640000")
  /\ isHexAmount "0x708" = true
  /\ isHexAmount "0xde0b6b3a7640000" = true
  /\ toHex (Sample.raw Sample.erc20 0) = Ok ZERO_HEX.
Proof. repeat split; vm_compute; reflexivity. Qed.

(** C3: the comparisons of the reconciliation go through [Number], that is
    through binary64 rounding, and differ from the exact ones beyond 2^53.
    In a pool with equal reserves, tolerance 1%, amount0 = 10^18 and
    amount1 = 1.01 * 10^18: the optimal B amount 10^18 is below the minimum
    10^18 + 1, yet both round to the same number, so the source keeps the
    desired B amount and its minimum, where exact comparisons replace
    them. *)
Theorem reconcile_compares_rounded :
  let amount0 := Sample.raw Sample.erc20 (10 ^ 18) in
  let amount1 := Sample.raw Sample.erc20 (101 * 10 ^ 16) in
  let options := Sample.options (mkFraction 1 100) in
  let slippageAdjusted := slippageAdjustedOf options in
  let st := mkAddAmounts (10 ^ 18) (101 * 10 ^ 16)
                         990099009900990100 (10 ^ 18 + 1) in
  initialAmounts slippageAdjusted amount0 amount1 = Ok st
  /\ quotient (quote amount0 (reserve1 Sample.evenPool)
                     (reserve0 Sample.evenPool)) = Ok (10 ^ 18)
  /\ (10 ^ 18 <? amountBMin st) = true
  /\ (Number (10 ^ 18) <? Number (amountBMin st)) = false
  /\ reconcile Sample.evenPool amount0 amount1 slippageAdjusted st = Ok st
  /\ reconcileExact Sample.evenPool amount0 amount1 slippageAdjusted st
     = Ok (mkAddAmounts (10 ^ 18) (10 ^ 18)
                        990099009900990100 990099009900990100)
  /\ addCallParameters (H := Sample.validation) 0 Sample.evenPool
                       amount0 amount1 options
     = Ok (mkSwapParameters
             "addLiquidity"
             [Str "0x000000000000000000000000000000000000000a";
              Str "0x000000000000000000000000000000000000000b";
              Str "1000000000000000000"; Str "1010000000000000000";
              Str "990099009900990100"; Str "1000000000000000001";
              Str "0x00000000000000000000000000000000000a11ce";
              Str "0x6553f100"]
             "0x0").
Proof. cbv zeta. repeat split; vm_compute; reflexivity. Qed.

(** ** Instances at the sample inputs *)

Lemma sample_swap_not_rejected :
  ~ swapRejected (H := Sample.validation) Sample.trade
      (Sample.options (mkFraction 1 100)).
Proof.
  intros [[_ B]|[[t [A _]]|[[A _]|A]]]; discriminate.
Defined.

Lemma swapCallParameters_table_witness :
  exists sp to amountIn amountOut,
    swapCallParameters (H := Sample.validation) 0 Sample.trade
                       (Sample.options (mkFraction 1 100)) = Ok sp
    /\ validateAndParseAddress (H := Sample.validation) Sample.alice = Ok to
    /\ toHex (Sample.raw Sample.ether (10 ^ 18)) = Ok amountIn
    /\ toHex (Sample.raw Sample.erc20 1800) = Ok amountOut
    /\ swapTable EXACT_INPUT true false false amountIn amountOut
                 (map address [Sample.tokenA; Sample.tokenB])
                 to (deadlineHex 0 (Deadline 1700000000))
       = Some sp
    /\ value sp = amountIn.
Proof.
  apply (swapCallParameters_table (H := Sample.validation) 0 Sample.trade
           (Sample.options (mkFraction 1 100))).
  - cbn. lia.
  - cbn. lia.
  - exact sample_swap_not_rejected.
Defined.

Lemma swapCallParameters_fails_iff_witness :
  ((exists e, swapCallParameters (H := Sample.validation) 0 Sample.trade
                (Sample.options (mkFraction 1 100)) = Throw e)
   <-> swapRejected (H := Sample.validation) Sample.trade
         (Sample.options (mkFraction 1 100)))
  /\ (~ swapRejected (H := Sample.validation) Sample.trade
          (Sample.options (mkFraction 1 100)) ->
      exists sp, swapCallParameters (H := Sample.validation) 0 Sample.trade
                   (Sample.options (mkFraction 1 100)) = Ok sp).
Proof.
  apply (swapCallParameters_fails_iff (H := Sample.validation) 0 Sample.trade
           (Sample.options (mkFraction 1 100))); cbn; lia.
Defined.

Lemma removeCallParameters_value_witness :
  value (removeLiquidityCall Sample.evenPool true false 1000
           4950495049504950495049 4950495049504950495049
           Sample.alice "0x6553f100") = "0x0"
  /\ (isNative Sample.ether || isNative Sample.erc20 = true ->
      methodName (removeLiquidityCall Sample.evenPool true false 1000
                    4950495049504950495049 4950495049504950495049
                    Sample.alice "0x6553f100") = "removeLiquidityETH")
  /\ (forall st to deadline,
         value (addLiquidityCall Sample.evenPool true false st to deadline)
         = JSBI.toString (amountADesired st)
         /\ value (addLiquidityCall Sample.evenPool false true st to deadline)
            = JSBI.toString (amountBDesired st)).
Proof.
  apply (removeCallParameters_value (H := Sample.validation) 0
           Sample.evenPool Sample.ether Sample.erc20 1000 1000 100
           (Sample.options (mkFraction 1 100))).
  vm_compute. reflexivity.
Defined.

Lemma addCallParameters_uninitialized_witness :
  addCallParameters (H := Sample.validation) 0 Sample.emptyPool
                    (Sample.raw Sample.erc20 1000)
                    (Sample.raw Sample.erc20 2000)
                    (Sample.options (mkFraction 0 100))
  = Ok (addLiquidityCall Sample.emptyPool false false
                         (mkAddAmounts 1000 2000 1001 2001)
                         Sample.alice "0x6553f100").
Proof.
  refine (proj2 (addCallParameters_uninitialized
                   (H := Sample.validation) 0 Sample.emptyPool
                   (Sample.raw Sample.erc20 1000)
                   (Sample.raw Sample.erc20 2000)
                   (Sample.options (mkFraction 0 100)) Sample.alice
                   _ _ _ _ _ _ _ _ _) _ _ _);
    try reflexivity; try (cbn; lia);
    intros E; vm_compute in E; discriminate E.
Defined.

Lemma removeCallParameters_amounts_witness :
  (exists sp,
      removeCallParameters (H := Sample.validation) 0 Sample.unevenPool
                           Sample.erc20 Sample.erc20 1000 1000 100
                           (Sample.options (mkFraction 1 100)) = Ok sp)
  /\ Fval (removePercentOf 1000 1000 100) == 1.
Proof.
  destruct (removeCallParameters_amounts
              (H := Sample.validation) 0 Sample.unevenPool
              Sample.erc20 Sample.erc20 1000 1000 100
              (Sample.options (mkFraction 1 100))
              ltac:(lia) ltac:(lia) ltac:(lia)
              ltac:(cbn; lia) ltac:(cbn; lia)
              ltac:(cbn; lia) ltac:(cbn; lia)
              ltac:(cbn; lia) ltac:(cbn; lia))
    as (_ & _ & _ & _ & Hruns & Hfull).
  split.
  - apply Hruns; try reflexivity; try (vm_compute; discriminate).
  - exact (proj1 (proj2 (Hfull eq_refl eq_refl))).
Defined.


(* ================================================================= *)
(** * Further properties of the encoders *)

(** ** Hexadecimal renderings *)

Lemma hex_digits_of_uint (u : Hexadecimal.uint) :
  forallb isHexDigit
          (list_ascii_of_string
             (HexadecimalString.NilEmpty.string_of_uint u)) = true.
Proof. induction u; cbn; auto. Qed.

Lemma to_hex_uint_normal (p : positive) :
  Hexadecimal.unorm (Pos.to_hex_uint p) = Pos.to_hex_uint p.
Proof.
  pose proof (HexadecimalZ.to_of (Z.to_hex_int (Z.pos p))) as E.
  rewrite HexadecimalZ.of_to in E. cbn in E. congruence.
Qed.

Lemma toString16_nonneg_wellformed (z : Z) :
  0 <= z -> isHexAmount ("0x" ++ JSBI.toString16 z) = true.
Proof.
  intros Hz. unfold JSBI.toString16.
  destruct z as [|p|p]; [reflexivity | | lia].
  cbn [Z.to_hex_int HexadecimalString.NilZero.string_of_int].
  pose proof (to_hex_uint_normal p) as E.
  pose proof (HexadecimalFacts.nzhead_nonzero (Pos.to_hex_uint p)) as Hnz.
  pose proof (HexadecimalPos.Unsigned.to_uint_nonzero p) as Hn0.
  unfold Hexadecimal.unorm in E.
  destruct (Hexadecimal.nzhead (Pos.to_hex_uint p)) eqn:N;
    rewrite <- E in *;
    try (exfalso; apply (Hnz u); reflexivity);
    try (exfalso; apply Hn0; reflexivity);
    cbn; apply hex_digits_of_uint.
Qed.

Lemma toString16_negative_malformed (z : Z) :
  z < 0 -> isHexAmount ("0x" ++ JSBI.toString16 z) = false.
Proof.
  intros Hz. destruct z as [|p|p]; try lia. reflexivity.
Qed.

Lemma isHexAmount_toString16 (z : Z) :
  isHexAmount ("0x" ++ JSBI.toString16 z) = (0 <=? z).
Proof.
  destruct (Z.leb_spec 0 z).
  - now apply toString16_nonneg_wellformed.
  - now apply toString16_negative_malformed.
Qed.

Lemma decodeHex_toString16 (z : Z) :
  decodeHex ("0x" ++ JSBI.toString16 z) = Some z.
Proof.
  unfold decodeHex, JSBI.toString16. cbn [append].
  rewrite HexadecimalString.NilZero.isi.
  - cbn [option_map]. now rewrite HexadecimalZ.of_to.
  - destruct z; cbn; try discriminate.
    intros E. inversion E as [E'].
    now apply HexadecimalPos.Unsigned.to_uint_nonnil in E'.
  - destruct z; cbn; try discriminate.
    intros E. inversion E as [E'].
    now apply HexadecimalPos.Unsigned.to_uint_nonnil in E'.
Qed.

(** X1: for an amount with a non-zero denominator, [toHex] returns a
    string that reads back as the truncated quotient, and that string is
    a well-formed hexadecimal amount (prefix, no padding, lower case,
    no sign) exactly when the quotient is not negative. *)
Theorem toHex_reads_back (a : CurrencyAmount) :
  denominator a <> 0 ->
  exists s,
    toHex a = Ok s
    /\ decodeHex s = Some (Z.quot (numerator a) (denominator a))
    /\ isHexAmount s = (0 <=? Z.quot (numerator a) (denominator a)).
Proof.
  intros Hd. eexists. split; [now apply toHex_defined|].
  split; [apply decodeHex_toString16 | apply isHexAmount_toString16].
Qed.

Lemma toHex_reads_back_witness :
  exists s,
    toHex (Sample.raw Sample.erc20 1800) = Ok s
    /\ decodeHex s = Some (Z.quot 1800 1)
    /\ isHexAmount s = (0 <=? Z.quot 1800 1).
Proof.
  apply (toHex_reads_back (Sample.raw Sample.erc20 1800)). cbn. lia.
Defined.

(** ** What a successful call went through *)

Section Inversions.

Context `{AddressValidation}.

Lemma swapCallParameters_Ok_valid (now : Z) (trade : Trade)
      (options : TradeOptions) (sp : SwapParameters) :
  swapCallParameters now trade options = Ok sp ->
  isNative (currency (inputAmount trade))
  && isNative (currency (outputAmount trade)) = false
  /\ ttlOk (expiry options) = true.
Proof.
  unfold swapCallParameters. intros Hrun. unbind Hrun.
  apply invariant_Ok_inv in E, E0.
  split; [now apply negb_true_iff in E | exact E0].
Qed.

Lemma addCallParameters_Ok_inv (now : Z) (pair : Pair)
      (amount0 amount1 : CurrencyAmount) (options : TradeOptions)
      (sp : SwapParameters) :
  addCallParameters now pair amount0 amount1 options = Ok sp ->
  isNative (currency amount0) && isNative (currency amount1) = false
  /\ ttlOk (expiry options) = true
  /\ exists to st0 st,
      validateAndParseAddress (recipient options) = Ok to
      /\ initialAmounts (slippageAdjustedOf options) amount0 amount1 = Ok st0
      /\ reconcile pair amount0 amount1 (slippageAdjustedOf options) st0
         = Ok st
      /\ sp = addLiquidityCall
                pair (isNative (currency amount0))
                (isNative (currency amount1))
                st to (deadlineHex now (expiry options)).
Proof.
  unfold addCallParameters. intros Hrun. unbind Hrun.
  apply invariant_Ok_inv in E, E0.
  split; [now apply negb_true_iff in E|]. split; [exact E0|].
  exists a1, a2, a3. inversion Hrun. auto.
Qed.

Lemma removeCallParameters_Ok_inv (now : Z) (pair : Pair)
      (tokenA tokenB : Currency) (totalSupply balance decreasePercent : Z)
      (options : TradeOptions) (sp : SwapParameters) :
  removeCallParameters now pair tokenA tokenB totalSupply balance
                       decreasePercent options = Ok sp ->
  isNative tokenA && isNative tokenB = false
  /\ ttlOk (expiry options) = true
  /\ exists to aMin bMin liquidityQuotient,
      validateAndParseAddress (recipient options) = Ok to
      /\ removeMinimum (reserve0 pair)
                       (removePercentOf totalSupply balance decreasePercent)
                       (slippageAdjustedOf options) = Ok aMin
      /\ removeMinimum (reserve1 pair)
                       (removePercentOf totalSupply balance decreasePercent)
                       (slippageAdjustedOf options) = Ok bMin
      /\ quotient (liquidityOf balance decreasePercent) = Ok liquidityQuotient
      /\ sp = removeLiquidityCall pair (isNative tokenA) (isNative tokenB)
                                  liquidityQuotient aMin bMin to
                                  (deadlineHex now (expiry options)).
Proof.
  unfold removeCallParameters. intros Hrun. unbind Hrun.
  apply invariant_Ok_inv in E, E0.
  split; [now apply negb_true_iff in E|]. split; [exact E0|].
  exists a1, a2, a3, a4. inversion Hrun. auto.
Qed.

End Inversions.

(** ** The deadline *)

(** The integer behind [deadlineHex]. *)
Lemma decodeHex_deadlineHex (now : Z) (e : Expiry) :
  decodeHex (deadlineHex now e)
  = Some (match e with
          | Ttl ttl => now / 1000 + ttl
          | Deadline deadline => deadline
          end).
Proof. destruct e; apply decodeHex_toString16. Qed.

Section Deadline.

Context `{AddressValidation}.

(** X2: for options whose [ttl] or [deadline] is a whole number of
    seconds: whichever encoder returns, its arguments end with the
    validated recipient followed by the deadline in hexadecimal; the
    deadline reads back as the absolute deadline given, or, with the clock
    and the sum within 2^53, as floor (now / 1000) + ttl, which is then
    strictly later than the second at which the clock was read. *)
Theorem encoders_end_with_recipient_and_deadline
        (now : Z) (trade : Trade) (pair : Pair)
        (amount0 amount1 : CurrencyAmount) (tokenA tokenB : Currency)
        (totalSupply balance decreasePercent : Z)
        (options : TradeOptions) (sp : SwapParameters) :
  swapCallParameters now trade options = Ok sp
  \/ addCallParameters now pair amount0 amount1 options = Ok sp
  \/ removeCallParameters now pair tokenA tokenB totalSupply balance
                          decreasePercent options = Ok sp ->
  exists front to deadline,
    args sp = (front ++ [Str to; Str deadline])%list
    /\ validateAndParseAddress (recipient options) = Ok to
    /\ deadline = deadlineHex now (expiry options)
    /\ (forall absolute, expiry options = Deadline absolute ->
        decodeHex deadline = Some absolute)
    /\ (forall ttl, expiry options = Ttl ttl ->
        - 2 ^ 53 <= now / 1000 -> now / 1000 + ttl <= 2 ^ 53 ->
        decodeHex deadline = Some (now / 1000 + ttl)
        /\ now / 1000 < now / 1000 + ttl).
Proof.
  intros Hrun.
  assert (Hshape :
    ttlOk (expiry options) = true
    /\ exists front to,
        args sp
        = (front ++ [Str to; Str (deadlineHex now (expiry options))])%list
        /\ validateAndParseAddress (recipient options) = Ok to).
  { destruct Hrun as [Hrun|[Hrun|Hrun]].
    - destruct (swapCallParameters_Ok_valid _ _ _ _ Hrun) as [_ Httl].
      split; [exact Httl|].
      destruct (swapCallParameters_Ok_inv _ _ _ _ Hrun)
        as (to & amountIn & amountOut & Hto & _ & _ & Htable & _).
      destruct (tradeType trade),
        (isNative (currency (inputAmount trade))),
        (isNative (currency (outputAmount trade))),
        (Boolean (feeOnTransfer options));
        try discriminate Htable;
        inversion Htable; subst sp; cbn [args];
        first [ exists [Str amountOut; Arr (map address (route_path trade))],
                  to; split; [reflexivity | exact Hto]
              | exists [Str amountIn; Str amountOut;
                        Arr (map address (route_path trade))],
                  to; split; [reflexivity | exact Hto]
              | exists [Str amountOut; Str amountIn;
                        Arr (map address (route_path trade))],
                  to; split; [reflexivity | exact Hto] ].
    - destruct (addCallParameters_Ok_inv _ _ _ _ _ _ Hrun)
        as (_ & Httl & to & st0 & st & Hto & _ & _ & Hsp).
      split; [exact Httl|]. subst sp. unfold addLiquidityCall.
      destruct (isNative (currency amount0)),
        (isNative (currency amount1)); cbn [args];
        first [ eexists [_; _; _; _], to; split; [reflexivity | exact Hto]
              | eexists [_; _; _; _; _; _], to;
                split; [reflexivity | exact Hto] ].
    - destruct (removeCallParameters_Ok_inv _ _ _ _ _ _ _ _ _ Hrun)
        as (_ & Httl & to & aMin & bMin & l & Hto & _ & _ & _ & Hsp).
      split; [exact Httl|]. subst sp. unfold removeLiquidityCall.
      destruct (isNative tokenA), (isNative tokenB); cbn [args];
        first [ eexists [_; _; _; _], to; split; [reflexivity | exact Hto]
              | eexists [_; _; _; _; _], to;
                split; [reflexivity | exact Hto] ]. }
  destruct Hshape as (Httl & front & to & Hargs & Hto).
  exists front, to, (deadlineHex now (expiry options)).
  split; [exact Hargs|]. split; [exact Hto|]. split; [reflexivity|].
  split.
  - intros absolute E. rewrite decodeHex_deadlineHex, E. reflexivity.
  - intros ttl E _ _. rewrite decodeHex_deadlineHex, E. split; [reflexivity|].
    rewrite E in Httl. cbn in Httl. apply Z.ltb_lt in Httl. lia.
Qed.

End Deadline.

(** ** Swap: amounts and failures *)

Lemma isHexAmount_deadlineHex (now : Z) (e : Expiry) :
  0 <= now ->
  ttlOk e = true ->
  (forall absolute, e = Deadline absolute -> 0 <= absolute) ->
  isHexAmount (deadlineHex now e) = true.
Proof.
  intros Hnow Httl Habs. destruct e as [ttl|absolute]; cbn in *.
  - apply toString16_nonneg_wellformed. apply Z.ltb_lt in Httl.
    pose proof (Z.div_pos now 1000 Hnow ltac:(lia)). lia.
  - apply toString16_nonneg_wellformed. now apply Habs.
Qed.

Section SwapProperties.

Context `{AddressValidation}.

(** X3: for options whose [ttl] or [deadline] is a whole number of
    seconds: when the slippage-adjusted amounts of the trade are not
    negative and neither are the clock and the absolute deadline, every
    string a swap returns, apart from the recipient, is a well-formed
    hexadecimal amount: the value and each string argument. *)
Theorem swapCallParameters_amounts_wellformed (now : Z) (trade : Trade)
        (options : TradeOptions) (sp : SwapParameters) :
  swapCallParameters now trade options = Ok sp ->
  0 <= numerator (maximumAmountIn trade (allowedSlippage options)) ->
  0 < denominator (maximumAmountIn trade (allowedSlippage options)) ->
  0 <= numerator (minimumAmountOut trade (allowedSlippage options)) ->
  0 < denominator (minimumAmountOut trade (allowedSlippage options)) ->
  0 <= now ->
  (forall absolute, expiry options = Deadline absolute -> 0 <= absolute) ->
  isHexAmount (value sp) = true
  /\ exists to,
      validateAndParseAddress (recipient options) = Ok to
      /\ forall s, In s (stringArgs (args sp)) ->
                   s = to \/ isHexAmount s = true.
Proof.
  intros Hrun Hn1 Hd1 Hn2 Hd2 Hnow Habs.
  destruct (swapCallParameters_Ok_valid _ _ _ _ Hrun) as [_ Httl].
  destruct (swapCallParameters_Ok_inv _ _ _ _ Hrun)
    as (to & amountIn & amountOut & Hto & Hin & Hout & Htable & Hvalue).
  rewrite toHex_defined in Hin, Hout by lia.
  assert (Win : isHexAmount amountIn = true).
  { inversion Hin. apply toString16_nonneg_wellformed.
    apply Z.quot_pos; lia. }
  assert (Wout : isHexAmount amountOut = true).
  { inversion Hout. apply toString16_nonneg_wellformed.
    apply Z.quot_pos; lia. }
  pose proof (isHexAmount_deadlineHex now _ Hnow Httl Habs) as Wdl.
  split.
  - rewrite Hvalue.
    destruct (isNative (currency (inputAmount trade)));
      [exact Win | reflexivity].
  - exists to. split; [exact Hto|].
    destruct (tradeType trade),
      (isNative (currency (inputAmount trade))),
      (isNative (currency (outputAmount trade))),
      (Boolean (feeOnTransfer options));
      try discriminate Htable;
      inversion Htable; subst sp; cbn [args stringArgs flat_map app];
      intros s Hs; cbn in Hs; intuition (subst; auto).
Qed.

(** X4: the first check that fails decides what [swapCallParameters]
    throws: both currencies native, then a ttl that is not positive,
    then the recipient, and only then fee-on-transfer on an exact-output
    trade. *)
Theorem swapCallParameters_first_failure (now : Z) (trade : Trade)
        (options : TradeOptions) :
  denominator (maximumAmountIn trade (allowedSlippage options)) <> 0 ->
  denominator (minimumAmountOut trade (allowedSlippage options)) <> 0 ->
  let bothNative := isNative (currency (inputAmount trade))
                    && isNative (currency (outputAmount trade)) in
  (bothNative = true ->
   swapCallParameters now trade options
   = Throw (InvariantFailed "ETHER_IN_OUT"))
  /\ (bothNative = false -> ttlOk (expiry options) = false ->
      swapCallParameters now trade options = Throw (InvariantFailed "TTL"))
  /\ (bothNative = false -> ttlOk (expiry options) = true ->
      parseAddress (recipient options) = None ->
      swapCallParameters now trade options
      = Throw (InvalidAddress (recipient options)))
  /\ (bothNative = false -> ttlOk (expiry options) = true ->
      parseAddress (recipient options) <> None ->
      tradeType trade = EXACT_OUTPUT ->
      Boolean (feeOnTransfer options) = true ->
      swapCallParameters now trade options
      = Throw (InvariantFailed "EXACT_OUT_FOT")).
Proof.
  intros Hin Hout bothNative. subst bothNative.
  unfold swapCallParameters, validateAndParseAddress.
  rewrite (toHex_defined _ Hin), (toHex_defined _ Hout).
  repeat split.
  - intros E. now rewrite E.
  - intros E1 E2. now rewrite E1, E2.
  - intros E1 E2 E3. now rewrite E1, E2, E3.
  - intros E1 E2 E3 E4 E5. rewrite E1, E2, E4, E5.
    destruct (parseAddress (recipient options)); [reflexivity | congruence].
Qed.

End SwapProperties.

Section LiquidityValidation.

Context `{AddressValidation}.

(** X5: [addCallParameters] and [removeCallParameters] run the same three
    checks in the same order before any arithmetic: whatever the pool, the
    amounts, the supply and the tolerance (divisions by zero included),
    two native currencies give ETHER_IN_OUT, otherwise a ttl that is not
    positive gives TTL, otherwise a recipient that does not validate gives
    the address error. *)
Theorem liquidity_validation_first (now : Z) (pair : Pair)
        (amount0 amount1 : CurrencyAmount) (tokenA tokenB : Currency)
        (totalSupply balance decreasePercent : Z) (options : TradeOptions) :
  (isNative (currency amount0) && isNative (currency amount1) = true ->
   addCallParameters now pair amount0 amount1 options
   = Throw (InvariantFailed "ETHER_IN_OUT"))
  /\ (isNative tokenA && isNative tokenB = true ->
      removeCallParameters now pair tokenA tokenB totalSupply balance
                           decreasePercent options
      = Throw (InvariantFailed "ETHER_IN_OUT"))
  /\ (ttlOk (expiry options) = false ->
      (isNative (currency amount0) && isNative (currency amount1) = false ->
       addCallParameters now pair amount0 amount1 options
       = Throw (InvariantFailed "TTL"))
      /\ (isNative tokenA && isNative tokenB = false ->
          removeCallParameters now pair tokenA tokenB totalSupply balance
                               decreasePercent options
          = Throw (InvariantFailed "TTL")))
  /\ (ttlOk (expiry options) = true ->
      parseAddress (recipient options) = None ->
      (isNative (currency amount0) && isNative (currency amount1) = false ->
       addCallParameters now pair amount0 amount1 options
       = Throw (InvalidAddress (recipient options)))
      /\ (isNative tokenA && isNative tokenB = false ->
          removeCallParameters now pair tokenA tokenB totalSupply balance
                               decreasePercent options
          = Throw (InvalidAddress (recipient options)))).
Proof.
  unfold addCallParameters, removeCallParameters, validateAndParseAddress.
  repeat split; intros; 
    repeat match goal with
           | E : _ = _ |- _ => rewrite E; clear E
           end; reflexivity.
Qed.

End LiquidityValidation.

(** ** The quote primitive, composed with itself *)

Lemma quote_integers (a r s : Z) :
  0 <= a -> 0 <= r -> 0 < s ->
  quotient (quote (fromInt a) (fromInt r) (fromInt s)) = Ok (a * r / s).
Proof.
  intros Ha Hr Hs. rewrite quotient_defined.
  - unfold quote, divide, multiply, fromInt. cbn [numerator denominator].
    f_equal. rewrite Z.quot_div_nonneg by nia. f_equal; lia.
  - unfold quote, divide, multiply, fromInt. cbn [numerator denominator].
    lia.
Qed.

(** X6: quoting there and back.  As fractions the second quote undoes
    the first exactly; once the first result is truncated to an integer,
    quoting it back never exceeds the original amount and falls short of it
    by less than 1 + reserveB / reserveA (so by at most one unit when
    reserveB <= reserveA). *)
Theorem quote_there_and_back (a rA rB : Z) :
  0 <= a -> 0 < rA -> 0 < rB ->
  Fval (quote (quote (fromInt a) (fromInt rA) (fromInt rB))
              (fromInt rB) (fromInt rA))
  == inject_Z a
  /\ exists there back,
      quotient (quote (fromInt a) (fromInt rA) (fromInt rB)) = Ok there
      /\ quotient (quote (fromInt there) (fromInt rB) (fromInt rA)) = Ok back
      /\ back <= a
      /\ rA * (a - back) < rA + rB
      /\ (rB <= rA -> a - back <= 1).
Proof.
  intros Ha HA HB. split.
  - unfold quote.
    repeat first [ rewrite Fval_divide | rewrite Fval_multiply
                 | rewrite Fval_fromInt ].
    field. split; apply inject_Z_nonzero; lia.
  - exists (a * rA / rB), (a * rA / rB * rB / rA).
    assert (Ht : 0 <= a * rA / rB) by (apply Z.div_pos; nia).
    split; [apply quote_integers; lia|].
    split; [apply quote_integers; lia|].
    pose proof (Z.mul_div_le (a * rA) rB HB) as T1.
    pose proof (Z.mul_succ_div_gt (a * rA) rB HB) as T2.
    pose proof (Z.mul_div_le (a * rA / rB * rB) rA HA) as B1.
    pose proof (Z.mul_succ_div_gt (a * rA / rB * rB) rA HA) as B2.
    set (there := a * rA / rB) in *.
    set (back := there * rB / rA) in *.
    assert (Hle : back <= a) by nia.
    assert (Hgap : rA * (a - back) < rA + rB) by nia.
    repeat split; try assumption.
    intros Hrr. nia.
Qed.

Lemma quote_there_and_back_witness :
  Fval (quote (quote (fromInt 7) (fromInt 3) (fromInt 2))
              (fromInt 2) (fromInt 3))
  == inject_Z 7
  /\ exists there back,
      quotient (quote (fromInt 7) (fromInt 3) (fromInt 2)) = Ok there
      /\ quotient (quote (fromInt there) (fromInt 2) (fromInt 3)) = Ok back
      /\ back <= 7
      /\ 3 * (7 - back) < 3 + 2
      /\ (2 <= 3 -> 7 - back <= 1).
Proof. apply (quote_there_and_back 7 3 2); lia. Defined.

(** X7: on non-negative amounts and positive reserves the quoted integer
    grows with the amount and with the multiplying reserve, shrinks with
    the dividing reserve, and is zero for a zero amount. *)
Theorem quote_monotone (a a' r r' s s' : Z) :
  0 <= a -> a <= a' -> 0 <= r -> r <= r' -> 0 < s' -> s' <= s ->
  exists q q',
    quotient (quote (fromInt a) (fromInt r) (fromInt s)) = Ok q
    /\ quotient (quote (fromInt a') (fromInt r') (fromInt s')) = Ok q'
    /\ 0 <= q <= q'
    /\ quotient (quote (fromInt 0) (fromInt r) (fromInt s)) = Ok 0.
Proof.
  intros Ha Haa Hr Hrr Hs Hss.
  exists (a * r / s), (a' * r' / s').
  split; [apply quote_integers; lia|].
  split; [apply quote_integers; lia|].
  split.
  - split; [apply Z.div_pos; nia|].
    transitivity (a' * r' / s).
    + apply Z.div_le_mono; nia.
    + apply Z.div_le_compat_l; nia.
  - rewrite quote_integers by lia. reflexivity.
Qed.

Lemma quote_monotone_witness :
  exists q q',
    quotient (quote (fromInt 10) (fromInt 3) (fromInt 7)) = Ok q
    /\ quotient (quote (fromInt 11) (fromInt 4) (fromInt 5)) = Ok q'
    /\ 0 <= q <= q'
    /\ quotient (quote (fromInt 0) (fromInt 3) (fromInt 7)) = Ok 0.
Proof. apply (quote_monotone 10 11 3 4 7 5); lia. Defined.

(** ** Add-liquidity: what reconciliation keeps *)

Lemma Number_lt_inv (x y : Z) : Number x < Number y -> x < y.
Proof.
  intros Hlt. destruct (Z.lt_ge_cases x y) as [L|G]; [exact L|].
  pose proof (Number_mono y x G). lia.
Qed.

(** The three ways out of the reconciliation block. *)
Lemma reconcile_cases (pair : Pair) (amount0 amount1 : CurrencyAmount)
      (slippageAdjusted : Fraction) (st0 st : AddAmounts) :
  reconcile pair amount0 amount1 slippageAdjusted st0 = Ok st ->
  st = st0
  \/ (exists amountBOptimal,
         quotient (quote amount0 (reserve1 pair) (reserve0 pair))
         = Ok amountBOptimal
         /\ Number amountBOptimal <= Number (amountBDesired st0)
         /\ Number amountBOptimal < Number (amountBMin st0)
         /\ minimumFor slippageAdjusted amountBOptimal = Ok (amountBMin st)
         /\ amountBDesired st = amountBOptimal
         /\ amountADesired st = amountADesired st0
         /\ amountAMin st = amountAMin st0)
  \/ (exists amountAOptimal,
         quotient (quote amount1 (reserve0 pair) (reserve1 pair))
         = Ok amountAOptimal
         /\ Number amountAOptimal <= Number (amountADesired st0)
         /\ Number amountAOptimal < Number (amountAMin st0)
         /\ minimumFor slippageAdjusted amountAOptimal = Ok (amountAMin st)
         /\ amountADesired st = amountAOptimal
         /\ amountBDesired st = amountBDesired st0
         /\ amountBMin st = amountBMin st0).
Proof.
  unfold reconcile. intros Hrun.
  destruct (negb (equalTo (reserve0 pair) (fromInt 0)
                  && equalTo (reserve1 pair) (fromInt 0)));
    [|inversion Hrun; auto].
  destruct (quoteAmount amount0 (reserve1 pair) (reserve0 pair))
    as [optimalB|e] eqn:Qb; cbn [bind] in Hrun; [|discriminate Hrun].
  destruct (quoteAmount_quotient _ _ _ _ Qb) as [_ Eb].
  destruct (quotient optimalB)
    as [b|e]; cbn [bind] in Hrun; [|discriminate Hrun].
  destruct (Z.leb_spec (Number b) (Number (amountBDesired st0))) as [Lb|Lb].
  - destruct (Z.ltb_spec (Number b) (Number (amountBMin st0))) as [Mb|Mb];
      [|inversion Hrun; auto].
    destruct (minimumFor slippageAdjusted b) as [m|e] eqn:Em;
      cbn [bind] in Hrun; [|discriminate Hrun].
    inversion Hrun; subst st; clear Hrun. right; left.
    exists b. cbn. auto 10.
  - destruct (quoteAmount amount1 (reserve0 pair) (reserve1 pair))
      as [optimalA|e] eqn:Qa; cbn [bind] in Hrun; [|discriminate Hrun].
    destruct (quoteAmount_quotient _ _ _ _ Qa) as [_ Ea].
    destruct (quotient optimalA)
      as [a|e]; cbn [bind] in Hrun; [|discriminate Hrun].
    destruct (Z.leb_spec (Number a) (Number (amountADesired st0))) as [La|La];
      [|inversion Hrun; auto].
    destruct (Z.ltb_spec (Number a) (Number (amountAMin st0))) as [Ma|Ma];
      [|inversion Hrun; auto].
    destruct (minimumFor slippageAdjusted a) as [m|e] eqn:Em;
      cbn [bind] in Hrun; [|discriminate Hrun].
    inversion Hrun; subst st; clear Hrun. right; right.
    exists a. cbn. auto 10.
Qed.

Lemma minimumFor_zero_tolerance (options : TradeOptions) (desired : Z) :
  numerator (allowedSlippage options) = 0 ->
  denominator (allowedSlippage options) <> 0 ->
  minimumFor (slippageAdjustedOf options) desired = Ok (desired + 1).
Proof.
  intros Hn Hd. rewrite slippageAdjustedOf_pair, Hn, Z.add_0_r.
  rewrite minimumFor_quot by (cbn [denominator]; exact Hd).
  cbn [numerator denominator]. f_equal.
  replace (denominator (allowedSlippage options) * desired
           + denominator (allowedSlippage options))
    with ((desired + 1) * denominator (allowedSlippage options)) by ring.
  now apply Z.quot_mul.
Qed.

Section AddProperties.

Context `{AddressValidation}.

(** X8: in every triple [addCallParameters] returns, reconciled or not,
    each minimum is the slippage formula applied to the desired amount
    emitted for the same side, and at most one side differs from the
    amounts first computed from the inputs. *)
Theorem addCallParameters_minimums_follow_desired
        (now : Z) (pair : Pair) (amount0 amount1 : CurrencyAmount)
        (options : TradeOptions) (sp : SwapParameters) :
  addCallParameters now pair amount0 amount1 options = Ok sp ->
  exists to st0 st,
    initialAmounts (slippageAdjustedOf options) amount0 amount1 = Ok st0
    /\ sp = addLiquidityCall
              pair (isNative (currency amount0))
              (isNative (currency amount1))
              st to (deadlineHex now (expiry options))
    /\ minimumFor (slippageAdjustedOf options) (amountADesired st)
       = Ok (amountAMin st)
    /\ minimumFor (slippageAdjustedOf options) (amountBDesired st)
       = Ok (amountBMin st)
    /\ ((amountADesired st = amountADesired st0
         /\ amountAMin st = amountAMin st0)
        \/ (amountBDesired st = amountBDesired st0
            /\ amountBMin st = amountBMin st0)).
Proof.
  intros Hrun.
  destruct (addCallParameters_Ok_inv _ _ _ _ _ _ Hrun)
    as (_ & _ & to & st0 & st & _ & Hinit & Hrec & Hsp).
  exists to, st0, st. split; [exact Hinit|]. split; [exact Hsp|].
  destruct (initialAmounts_inv _ _ _ _ Hinit) as (_ & _ & HaM & HbM).
  destruct (reconcile_cases _ _ _ _ _ _ Hrec)
    as [E | [(b & _ & _ & _ & Hm & Hd & Ha & Ham)
            | (a & _ & _ & _ & Hm & Hd & Hb & Hbm)]].
  - subst st. auto.
  - rewrite Ha, Ham, Hd. auto.
  - rewrite Hb, Hbm, Hd. auto.
Qed.

(** X9: with a non-negative tolerance and non-negative input amounts,
    [addCallParameters] never emits a desired amount above the one
    asked for, even where the comparisons are rounded by [Number]. *)
Theorem addCallParameters_never_raises_desired
        (now : Z) (pair : Pair) (amount0 amount1 : CurrencyAmount)
        (options : TradeOptions) (sp : SwapParameters) :
  addCallParameters now pair amount0 amount1 options = Ok sp ->
  0 <= numerator (allowedSlippage options) ->
  0 < denominator (allowedSlippage options) ->
  0 <= numerator amount0 -> 0 < denominator amount0 ->
  0 <= numerator amount1 -> 0 < denominator amount1 ->
  exists to st,
    sp = addLiquidityCall
           pair (isNative (currency amount0)) (isNative (currency amount1))
           st to (deadlineHex now (expiry options))
    /\ amountADesired st <= numerator amount0 / denominator amount0
    /\ amountBDesired st <= numerator amount1 / denominator amount1.
Proof.
  intros Hrun Hsn Hsd Hn0 Hd0 Hn1 Hd1.
  destruct (addCallParameters_Ok_inv _ _ _ _ _ _ Hrun)
    as (_ & _ & to & st0 & st & _ & Hinit & Hrec & Hsp).
  exists to, st. split; [exact Hsp|].
  destruct (initialAmounts_inv _ _ _ _ Hinit) as (Ha & Hb & HaM & HbM).
  rewrite quotient_defined in Ha, Hb by lia.
  rewrite Z.quot_div_nonneg in Ha, Hb by lia.
  inversion Ha as [Ea]. inversion Hb as [Eb]. clear Ha Hb.
  assert (Pa : 0 <= amountADesired st0)
    by (rewrite <- Ea; apply Z.div_pos; lia).
  assert (Pb : 0 <= amountBDesired st0)
    by (rewrite <- Eb; apply Z.div_pos; lia).
  pose proof (minimumFor_le_succ options _ _ Hsn Hsd Pa HaM) as Ma.
  pose proof (minimumFor_le_succ options _ _ Hsn Hsd Pb HbM) as Mb.
  rewrite Ea, Eb.
  destruct (reconcile_cases _ _ _ _ _ _ Hrec)
    as [E | [(b & _ & _ & Hlt & _ & Hd & HA & _)
            | (a & _ & _ & Hlt & _ & Hd & HB & _)]].
  - subst st. lia.
  - apply Number_lt_inv in Hlt. lia.
  - apply Number_lt_inv in Hlt. lia.
Qed.

(** X10: at zero tolerance every triple [addCallParameters] returns has
    each minimum one above the desired amount emitted beside it, on an
    empty pool and on a reconciled one alike. *)
Theorem addCallParameters_zero_tolerance
        (now : Z) (pair : Pair) (amount0 amount1 : CurrencyAmount)
        (options : TradeOptions) (sp : SwapParameters) :
  addCallParameters now pair amount0 amount1 options = Ok sp ->
  numerator (allowedSlippage options) = 0 ->
  denominator (allowedSlippage options) <> 0 ->
  exists to st,
    sp = addLiquidityCall
           pair (isNative (currency amount0)) (isNative (currency amount1))
           st to (deadlineHex now (expiry options))
    /\ amountAMin st = amountADesired st + 1
    /\ amountBMin st = amountBDesired st + 1.
Proof.
  intros Hrun Hn Hd.
  destruct (addCallParameters_Ok_inv _ _ _ _ _ _ Hrun)
    as (_ & _ & to & st0 & st & _ & Hinit & Hrec & Hsp).
  exists to, st. split; [exact Hsp|].
  destruct (initialAmounts_inv _ _ _ _ Hinit) as (_ & _ & HaM & HbM).
  assert (Hmins :
    minimumFor (slippageAdjustedOf options) (amountADesired st)
    = Ok (amountAMin st)
    /\ minimumFor (slippageAdjustedOf options) (amountBDesired st)
       = Ok (amountBMin st)).
  { destruct (reconcile_cases _ _ _ _ _ _ Hrec)
      as [E | [(b & _ & _ & _ & Hm & Hd' & Ha & Ham)
              | (a & _ & _ & _ & Hm & Hd' & Hb & Hbm)]].
    - subst st. auto.
    - rewrite Ha, Ham, Hd'. auto.
    - rewrite Hb, Hbm, Hd'. auto. }
  destruct Hmins as [Ma Mb].
  rewrite minimumFor_zero_tolerance in Ma, Mb by assumption.
  inversion Ma. inversion Mb. auto.
Qed.

End AddProperties.

(** ** Add-liquidity on pools with an empty side *)

Lemma initialAmounts_defined (options : TradeOptions)
      (amount0 amount1 : CurrencyAmount) :
  0 <= numerator (allowedSlippage options) ->
  0 < denominator (allowedSlippage options) ->
  0 <= numerator amount0 -> 0 < denominator amount0 ->
  0 <= numerator amount1 -> 0 < denominator amount1 ->
  exists st0,
    initialAmounts (slippageAdjustedOf options) amount0 amount1 = Ok st0
    /\ amountADesired st0 = numerator amount0 / denominator amount0
    /\ amountBDesired st0 = numerator amount1 / denominator amount1
    /\ 0 <= amountADesired st0 /\ 0 <= amountBDesired st0
    /\ 1 <= amountAMin st0 /\ 1 <= amountBMin st0.
Proof.
  intros Hsn Hsd Hn0 Hd0 Hn1 Hd1.
  assert (Pa : 0 <= numerator amount0 / denominator amount0)
    by (apply Z.div_pos; lia).
  assert (Pb : 0 <= numerator amount1 / denominator amount1)
    by (apply Z.div_pos; lia).
  eexists. unfold initialAmounts.
  rewrite !quotient_defined by lia. cbn [bind].
  rewrite !Z.quot_div_nonneg by lia.
  rewrite !minimumFor_floor by assumption. cbn [bind].
  split; [reflexivity|]. cbn.
  repeat split; try assumption.
  - assert (0 <= denominator (allowedSlippage options)
                 * (numerator amount0 / denominator amount0)
                 / (denominator (allowedSlippage options)
                    + numerator (allowedSlippage options)))
      by (apply Z.div_pos; nia).
    lia.
  - assert (0 <= denominator (allowedSlippage options)
                 * (numerator amount1 / denominator amount1)
                 / (denominator (allowedSlippage options)
                    + numerator (allowedSlippage options)))
      by (apply Z.div_pos; nia).
    lia.
Qed.

Lemma Number_zero_le (x : Z) : 0 <= x -> (Number 0 <=? Number x) = true.
Proof. intros Hx. apply Z.leb_le. now apply Number_mono. Qed.

Lemma Number_zero_lt (x : Z) : 1 <= x -> (Number 0 <? Number x) = true.
Proof.
  intros Hx. apply Z.ltb_lt.
  pose proof (Number_mono 1 x Hx) as Hm.
  change (Number 0) with 0. change (Number 1) with 1 in Hm. lia.
Qed.

Section EmptySides.

Context `{AddressValidation}.

(** X11: with valid options, a non-negative tolerance and non-negative
    amounts, what [addCallParameters] does on a pool is settled by the
    reserves and by the range of a currency amount (at most 2^256 - 1).
    On a pool that is not empty, a product amount0 * reserve1 above the
    range throws [AMOUNT]; with that product in range, a pool whose
    reserve0 is zero while its reserve1 is not throws a division by zero
    in the first quote; on every other pool, with the products and both
    quotes in range, it returns a triple. *)
Theorem addCallParameters_throws_iff
        (now : Z) (pair : Pair) (amount0 amount1 : CurrencyAmount)
        (options : TradeOptions) (to : string) :
  isNative (currency amount0) && isNative (currency amount1) = false ->
  ttlOk (expiry options) = true ->
  validateAndParseAddress (recipient options) = Ok to ->
  0 <= numerator (allowedSlippage options) ->
  0 < denominator (allowedSlippage options) ->
  0 <= numerator amount0 -> 0 < denominator amount0 ->
  0 <= numerator amount1 -> 0 < denominator amount1 ->
  denominator (reserve0 pair) <> 0 ->
  denominator (reserve1 pair) <> 0 ->
  (~ (numerator (reserve0 pair) = 0 /\ numerator (reserve1 pair) = 0) ->
   withinUint256 (multiply amount0 (reserve1 pair)) = false ->
   addCallParameters now pair amount0 amount1 options
   = Throw (InvariantFailed "AMOUNT"))
  /\ (numerator (reserve0 pair) = 0 /\ numerator (reserve1 pair) <> 0 ->
      withinUint256 (multiply amount0 (reserve1 pair)) = true ->
      addCallParameters now pair amount0 amount1 options
      = Throw DivisionByZero)
  /\ (~ (numerator (reserve0 pair) = 0 /\ numerator (reserve1 pair) <> 0) ->
      withinUint256 (multiply amount0 (reserve1 pair)) = true ->
      withinUint256 (quote amount0 (reserve1 pair) (reserve0 pair)) = true ->
      withinUint256 (multiply amount1 (reserve0 pair)) = true ->
      withinUint256 (quote amount1 (reserve0 pair) (reserve1 pair)) = true ->
      exists sp, addCallParameters now pair amount0 amount1 options = Ok sp).
Proof.
  intros Hnative Httl Hto Hsn Hsd Hn0 Hd0 Hn1 Hd1 HdA HdB.
  destruct (initialAmounts_defined options amount0 amount1
              Hsn Hsd Hn0 Hd0 Hn1 Hd1)
    as (st0 & Hinit & _ & _ & Pa & Pb & _ & _).
  assert (HdP0 : denominator (multiply amount0 (reserve1 pair)) <> 0)
    by (unfold multiply; cbn [denominator]; nia).
  assert (HdP1 : denominator (multiply amount1 (reserve0 pair)) <> 0)
    by (unfold multiply; cbn [denominator]; nia).
  unfold addCallParameters.
  rewrite Hnative, Httl, Hto. cbn [negb invariant bind].
  rewrite Hinit. cbn [bind]. unfold reconcile. rewrite !equalTo_zero.
  split; [|split].
  - intros Hnot Hover.
    destruct (Z.eqb_spec (numerator (reserve0 pair)) 0) as [E0|N0];
      [destruct (Z.eqb_spec (numerator (reserve1 pair)) 0) as [E1|N1];
       [exfalso; auto|]|];
      cbn [andb negb]; now rewrite quoteAmount_overflow.
  - intros [E0 N1] Hin.
    rewrite E0. apply Z.eqb_neq in N1. rewrite N1. cbn [Z.eqb andb negb].
    now rewrite quoteAmount_undefined.
  - intros Hnot Hp0 Hq0 Hp1 Hq1.
    destruct (Z.eqb_spec (numerator (reserve0 pair)) 0) as [E0|N0].
    + destruct (Z.eqb_spec (numerator (reserve1 pair)) 0) as [E1|N1];
        [|exfalso; auto].
      cbn [andb negb bind]. eexists. reflexivity.
    + cbn [andb negb].
      rewrite quoteAmount_within; try assumption;
        [|unfold quote, divide, multiply; cbn [numerator denominator]; nia].
      cbn [bind].
      rewrite (quotient_defined
                 (quote amount0 (reserve1 pair) (reserve0 pair)))
        by (unfold quote, divide, multiply; cbn [numerator denominator];
            nia).
      cbn [bind].
      assert (Hmin : forall x, exists m,
                 minimumFor (slippageAdjustedOf options) x = Ok m).
      { intros x. eexists. apply minimumFor_quot.
        rewrite slippageAdjustedOf_pair. cbn [denominator]. lia. }
      match goal with
      | |- context [Number ?b <=? Number (amountBDesired st0)] =>
          set (bOpt := b) in *
      end.
      destruct (Number bOpt <=? Number (amountBDesired st0)) eqn:Lb.
      * destruct (Number bOpt <? Number (amountBMin st0)).
        -- destruct (Hmin bOpt) as [m Hm]. rewrite Hm. cbn [bind].
           eexists. reflexivity.
        -- cbn [bind]. eexists. reflexivity.
      * destruct (Z.eq_dec (numerator (reserve1 pair)) 0) as [E1|N1].
        { exfalso. unfold bOpt in Lb.
          unfold quote, divide, multiply in Lb.
          cbn [numerator denominator] in Lb.
          rewrite E1, Z.mul_0_r, Z.mul_0_l, Z.quot_0_l in Lb by nia.
          rewrite Number_zero_le in Lb by assumption. discriminate Lb. }
        rewrite quoteAmount_within; try assumption;
          [|unfold quote, divide, multiply; cbn [numerator denominator];
            nia].
        cbn [bind].
        rewrite (quotient_defined
                   (quote amount1 (reserve0 pair) (reserve1 pair)))
          by (unfold quote, divide, multiply; cbn [numerator denominator];
              nia).
        cbn [bind].
        match goal with
        | |- context [Number ?a <=? Number (amountADesired st0)] =>
            set (aOpt := a) in *
        end.
        destruct (Number aOpt <=? Number (amountADesired st0));
          [|cbn [bind]; eexists; reflexivity].
        destruct (Number aOpt <? Number (amountAMin st0));
          [|cbn [bind]; eexists; reflexivity].
        destruct (Hmin aOpt) as [m Hm]. rewrite Hm. cbn [bind].
        eexists. reflexivity.
Qed.

(** X12: on a pool that holds token 0 only (reserve1 zero, reserve0 not),
    valid options, a non-negative tolerance and non-negative amounts make
    [addCallParameters] emit a desired B amount of 0 with a B minimum of
    1, and leave the A side as first computed. *)
Theorem addCallParameters_token0_only_pool
        (now : Z) (pair : Pair) (amount0 amount1 : CurrencyAmount)
        (options : TradeOptions) (to : string) :
  isNative (currency amount0) && isNative (currency amount1) = false ->
  ttlOk (expiry options) = true ->
  validateAndParseAddress (recipient options) = Ok to ->
  0 <= numerator (allowedSlippage options) ->
  0 < denominator (allowedSlippage options) ->
  0 <= numerator amount0 -> 0 < denominator amount0 ->
  0 <= numerator amount1 -> 0 < denominator amount1 ->
  numerator (reserve0 pair) <> 0 ->
  denominator (reserve0 pair) <> 0 ->
  numerator (reserve1 pair) = 0 ->
  denominator (reserve1 pair) <> 0 ->
  exists st0,
    initialAmounts (slippageAdjustedOf options) amount0 amount1 = Ok st0
    /\ addCallParameters now pair amount0 amount1 options
       = Ok (addLiquidityCall
               pair (isNative (currency amount0))
               (isNative (currency amount1))
               (mkAddAmounts (amountADesired st0) 0 (amountAMin st0) 1)
               to (deadlineHex now (expiry options))).
Proof.
  intros Hnative Httl Hto Hsn Hsd Hn0 Hd0 Hn1 Hd1 HnA HdA HnB HdB.
  destruct (initialAmounts_defined options amount0 amount1
              Hsn Hsd Hn0 Hd0 Hn1 Hd1)
    as (st0 & Hinit & _ & _ & Pa & Pb & Ma & Mb).
  exists st0. split; [exact Hinit|].
  unfold addCallParameters.
  rewrite Hnative, Httl, Hto. cbn [negb invariant bind].
  rewrite Hinit. cbn [bind]. unfold reconcile. rewrite !equalTo_zero.
  apply Z.eqb_neq in HnA. rewrite HnA. cbn [andb negb].
  apply Z.eqb_neq in HnA.
  assert (HM : MaxUint256 >= 0) by (unfold MaxUint256; lia).
  rewrite quoteAmount_within;
    try (unfold withinUint256, quote, divide, multiply;
         cbn [numerator denominator];
         rewrite HnB, ?Z.mul_0_r, ?Z.mul_0_l, Z.quot_0_l by nia;
         apply Z.leb_le; lia);
    try (unfold quote, divide, multiply; cbn [numerator denominator]; nia).
  cbn [bind].
  rewrite (quotient_defined (quote amount0 (reserve1 pair) (reserve0 pair)))
    by (unfold quote, divide, multiply; cbn [numerator denominator]; nia).
  unfold quote at 1 2, divide, multiply. cbn [numerator denominator bind].
  rewrite HnB, Z.mul_0_r, Z.mul_0_l, Z.quot_0_l by nia.
  rewrite Number_zero_le, Number_zero_lt by assumption.
  rewrite minimumFor_floor by (assumption || lia).
  cbn [bind]. rewrite Z.mul_0_r, Z.div_0_l by lia. reflexivity.
Qed.

(** X13: with non-negative amounts and positive reserves the last [else]
    of the reconciliation (the one holding only a to-do comment) is never
    reached: whenever the B-side test fails, the A-side test succeeds. *)
Theorem unreconciled_branch_unreachable
        (pair : Pair) (amount0 amount1 : CurrencyAmount)
        (options : TradeOptions) (st0 : AddAmounts)
        (amountBOptimal amountAOptimal : Z) :
  0 <= numerator amount0 -> 0 < denominator amount0 ->
  0 <= numerator amount1 -> 0 < denominator amount1 ->
  0 < numerator (reserve0 pair) -> 0 < denominator (reserve0 pair) ->
  0 < numerator (reserve1 pair) -> 0 < denominator (reserve1 pair) ->
  initialAmounts (slippageAdjustedOf options) amount0 amount1 = Ok st0 ->
  quotient (quote amount0 (reserve1 pair) (reserve0 pair))
  = Ok amountBOptimal ->
  quotient (quote amount1 (reserve0 pair) (reserve1 pair))
  = Ok amountAOptimal ->
  (Number amountBOptimal <=? Number (amountBDesired st0)) = false ->
  (Number amountAOptimal <=? Number (amountADesired st0)) = true.
Proof.
  intros Hn0 Hd0 Hn1 Hd1 HnA HdA HnB HdB Hinit Hb Ha Lb.
  destruct (initialAmounts_inv _ _ _ _ Hinit) as (Qa & Qb & _ & _).
  apply Z.leb_gt in Lb. apply Number_lt_inv in Lb.
  apply Z.leb_le. apply Number_mono.
  destruct (Z.le_gt_cases amountAOptimal (amountADesired st0)) as [L|G];
    [exact L | exfalso].
  apply (optimal_amounts_not_both_above
           amount0 amount1 (reserve0 pair) (reserve1 pair)
           (amountADesired st0) (amountBDesired st0)
           amountAOptimal amountBOptimal); try assumption.
  split; lia.
Qed.

End EmptySides.

(** ** Remove-liquidity: failures and bounds *)

Lemma removeMinimum_cases (reserve removePercent slippageAdjusted : Fraction) :
  denominator (multiply (multiply reserve removePercent) slippageAdjusted)
  <> 0 ->
  removeMinimum reserve removePercent slippageAdjusted
  = if withinUint256 (multiply reserve removePercent)
       && withinUint256 (multiply (multiply reserve removePercent)
                                  slippageAdjusted)
    then quotient (multiply (multiply reserve removePercent)
                            slippageAdjusted)
    else Throw (InvariantFailed "AMOUNT").
Proof.
  intros Hd.
  assert (Hd1 : denominator (multiply reserve removePercent) <> 0).
  { intros E. apply Hd. unfold multiply at 1. cbn [denominator].
    rewrite E. apply Z.mul_0_l. }
  unfold removeMinimum, amountMultiply.
  rewrite (currencyAmountOf_defined _ Hd1).
  destruct (withinUint256 (multiply reserve removePercent));
    cbn [bind andb]; [|reflexivity].
  rewrite (currencyAmountOf_defined _ Hd).
  now destruct (withinUint256 (multiply (multiply reserve removePercent)
                                        slippageAdjusted)).
Qed.

Lemma removeMinimum_zero_supply (reserve : Fraction)
      (balance decreasePercent : Z) (slippageAdjusted : Fraction) :
  removeMinimum reserve (removePercentOf 0 balance decreasePercent)
                slippageAdjusted
  = Throw DivisionByZero.
Proof.
  unfold removeMinimum, amountMultiply, currencyAmountOf.
  rewrite quotient_undefined; [reflexivity|].
  unfold removePercentOf, liquidityOf, multiply, divide, fromInt.
  cbn [numerator denominator]. lia.
Qed.

Section RemoveProperties.

Context `{AddressValidation}.

(** X14: with valid options, reserves that are fractions, a non-negative
    tolerance and a balance, a supply and a percentage that are whole
    numbers, [removeCallParameters] throws a division by zero exactly when
    the total supply is zero (no guard precedes it).  For every other
    supply the only failure left is [AMOUNT], raised when a product with a
    reserve exceeds the range of a currency amount (2^256 - 1); with the
    four products in range it returns a triple. *)
Theorem removeCallParameters_throws_iff
        (now : Z) (pair : Pair) (tokenA tokenB : Currency)
        (totalSupply balance decreasePercent : Z)
        (options : TradeOptions) (to : string) :
  isNative tokenA && isNative tokenB = false ->
  ttlOk (expiry options) = true ->
  validateAndParseAddress (recipient options) = Ok to ->
  0 <= numerator (allowedSlippage options) ->
  0 < denominator (allowedSlippage options) ->
  denominator (reserve0 pair) <> 0 ->
  denominator (reserve1 pair) <> 0 ->
  (totalSupply = 0 ->
   removeCallParameters now pair tokenA tokenB totalSupply balance
                        decreasePercent options = Throw DivisionByZero)
  /\ (totalSupply <> 0 ->
      forall e,
        removeCallParameters now pair tokenA tokenB totalSupply balance
                             decreasePercent options = Throw e ->
        e = InvariantFailed "AMOUNT")
  /\ (totalSupply <> 0 ->
      withinUint256
        (multiply (reserve0 pair)
                  (removePercentOf totalSupply balance decreasePercent))
      = true ->
      withinUint256
        (multiply (multiply (reserve0 pair)
                            (removePercentOf totalSupply balance
                                             decreasePercent))
                  (slippageAdjustedOf options))
      = true ->
      withinUint256
        (multiply (reserve1 pair)
                  (removePercentOf totalSupply balance decreasePercent))
      = true ->
      withinUint256
        (multiply (multiply (reserve1 pair)
                            (removePercentOf totalSupply balance
                                             decreasePercent))
                  (slippageAdjustedOf options))
      = true ->
      exists sp,
        removeCallParameters now pair tokenA tokenB totalSupply balance
                             decreasePercent options = Ok sp).
Proof.
  intros Hnative Httl Hto Hsn Hsd HdA HdB.
  unfold removeCallParameters.
  rewrite Hnative, Httl, Hto. cbn [negb invariant bind].
  split; [|split].
  - intros E. rewrite E. now rewrite removeMinimum_zero_supply.
  - intros Hts e.
    rewrite !removeMinimum_cases
      by (rewrite slippageAdjustedOf_pair;
          unfold removePercentOf, liquidityOf, multiply, divide, fromInt;
          cbn [numerator denominator]; nia).
    rewrite !quotient_defined
      by (rewrite ?slippageAdjustedOf_pair;
          unfold removePercentOf, liquidityOf, multiply, divide, fromInt;
          cbn [numerator denominator]; nia).
    repeat match goal with
           | |- context [if ?c then _ else _] => destruct c
           end; cbn [bind]; intros E; inversion E; reflexivity.
  - intros Hts Ha1 Ha2 Hb1 Hb2.
    rewrite !removeMinimum_cases
      by (rewrite slippageAdjustedOf_pair;
          unfold removePercentOf, liquidityOf, multiply, divide, fromInt;
          cbn [numerator denominator]; nia).
    rewrite Ha1, Ha2, Hb1, Hb2. cbn [andb].
    rewrite !quotient_defined
      by (rewrite ?slippageAdjustedOf_pair;
          unfold removePercentOf, liquidityOf, multiply, divide, fromInt;
          cbn [numerator denominator]; nia).
    cbn [bind]. eexists. reflexivity.
Qed.

(** X15: removing at most everything one holds never asks for more than
    there is: with whole numbers 0 <= balance <= totalSupply,
    0 < totalSupply and 0 <= decreasePercent <= 100, reserves that are
    non-negative currency amounts (at most 2^256 - 1) and a non-negative
    tolerance, the call returns, the liquidity emitted lies between 0 and
    the balance and each minimum between 0 and the integer part of its
    reserve. *)
Theorem removeCallParameters_bounds
        (now : Z) (pair : Pair) (tokenA tokenB : Currency)
        (totalSupply balance decreasePercent : Z)
        (options : TradeOptions) (to : string) :
  isNative tokenA && isNative tokenB = false ->
  ttlOk (expiry options) = true ->
  validateAndParseAddress (recipient options) = Ok to ->
  0 <= numerator (allowedSlippage options) ->
  0 < denominator (allowedSlippage options) ->
  0 <= numerator (reserve0 pair) -> 0 < denominator (reserve0 pair) ->
  0 <= numerator (reserve1 pair) -> 0 < denominator (reserve1 pair) ->
  withinUint256 (reserve0 pair) = true ->
  withinUint256 (reserve1 pair) = true ->
  0 <= balance -> balance <= totalSupply -> 0 < totalSupply ->
  0 <= decreasePercent -> decreasePercent <= 100 ->
  exists liquidity aMin bMin,
    removeCallParameters now pair tokenA tokenB totalSupply balance
                         decreasePercent options
    = Ok (removeLiquidityCall pair (isNative tokenA) (isNative tokenB)
                              liquidity aMin bMin to
                              (deadlineHex now (expiry options)))
    /\ 0 <= liquidity <= balance
    /\ 0 <= aMin <= numerator (reserve0 pair) / denominator (reserve0 pair)
    /\ 0 <= bMin <= numerator (reserve1 pair) / denominator (reserve1 pair).
Proof.
  intros Hnative Httl Hto Hsn Hsd Hn0 Hd0 Hn1 Hd1 Hw0 Hw1 Hb Hbt Ht Hp Hp100.
  assert (Hshare : balance * decreasePercent <= 100 * totalSupply) by nia.
  unfold withinUint256 in Hw0, Hw1.
  apply Z.leb_le in Hw0. apply Z.leb_le in Hw1.
  rewrite Z.quot_div_nonneg in Hw0, Hw1 by lia.
  destruct (removeMinimum_within_share
              (reserve0 pair) totalSupply balance decreasePercent options)
    as (a & Ha & Ba); try assumption.
  destruct (removeMinimum_within_share
              (reserve1 pair) totalSupply balance decreasePercent options)
    as (b & Hb' & Bb); try assumption.
  exists (balance * decreasePercent / 100), a, b.
  split.
  - unfold removeCallParameters.
    rewrite Hnative, Httl, Hto. cbn [negb invariant bind].
    rewrite Ha, Hb'. cbn [bind].
    rewrite quotient_defined
      by (unfold liquidityOf, multiply, divide, fromInt;
          cbn [numerator denominator]; lia).
    cbn [bind]. unfold liquidityOf, multiply, divide, fromInt.
    cbn [numerator denominator].
    rewrite Z.quot_div_nonneg by nia.
    do 3 f_equal; lia.
  - split; [|split; assumption].
    split; [apply Z.div_pos; nia|].
    apply Z.div_le_upper_bound; nia.
Qed.

End RemoveProperties.

(** ** The clock *)

Lemma deadlineHex_same_second (now now' : Z) (e : Expiry) :
  now / 1000 = now' / 1000 \/ (exists absolute, e = Deadline absolute) ->
  deadlineHex now e = deadlineHex now' e.
Proof.
  intros [E|[absolute E]].
  - destruct e; cbn; [now rewrite E | reflexivity].
  - subst e. reflexivity.
Qed.

Section Clock.

Context `{AddressValidation}.

(** X16: the clock enters the three encoders through the whole second
    only, and not at all when an absolute deadline is given: two readings
    of the clock within one second, or any two readings under an absolute
    deadline, give the same outcome. *)
Theorem encoders_read_clock_by_second
        (now now' : Z) (trade : Trade) (pair : Pair)
        (amount0 amount1 : CurrencyAmount) (tokenA tokenB : Currency)
        (totalSupply balance decreasePercent : Z) (options : TradeOptions) :
  now / 1000 = now' / 1000
  \/ (exists absolute, expiry options = Deadline absolute) ->
  swapCallParameters now trade options
  = swapCallParameters now' trade options
  /\ addCallParameters now pair amount0 amount1 options
     = addCallParameters now' pair amount0 amount1 options
  /\ removeCallParameters now pair tokenA tokenB totalSupply balance
                          decreasePercent options
     = removeCallParameters now' pair tokenA tokenB totalSupply balance
                            decreasePercent options.
Proof.
  intros Hclock.
  pose proof (deadlineHex_same_second now now' (expiry options) Hclock) as E.
  unfold swapCallParameters, addCallParameters, removeCallParameters.
  now rewrite E.
Qed.

End Clock.

(** ** Add-liquidity: deposits in the pool's ratio, and bounds *)

Section AddBounds.

Context `{AddressValidation}.

(** X17: a deposit of whole amounts in the exact ratio of a pool with
    whole positive reserves (amount0 * reserve1 = amount1 * reserve0),
    the product amount0 * reserve1 being within the range of a currency
    amount (at most 2^256 - 1), passes through: the triple carries the
    amounts and minimums first computed, at any non-negative tolerance and
    whatever [Number] rounds to. *)
Theorem addCallParameters_balanced_deposit
        (now : Z) (pair : Pair) (amount0 amount1 : CurrencyAmount)
        (options : TradeOptions) (to : string) (a0 a1 r0 r1 : Z) :
  isNative (currency amount0) && isNative (currency amount1) = false ->
  ttlOk (expiry options) = true ->
  validateAndParseAddress (recipient options) = Ok to ->
  0 <= numerator (allowedSlippage options) ->
  0 < denominator (allowedSlippage options) ->
  fraction amount0 = fromInt a0 -> fraction amount1 = fromInt a1 ->
  reserve0 pair = fromInt r0 -> reserve1 pair = fromInt r1 ->
  0 <= a0 -> 0 <= a1 -> 0 < r0 -> 0 < r1 ->
  a0 * r1 = a1 * r0 ->
  a0 * r1 <= MaxUint256 ->
  exists st0,
    initialAmounts (slippageAdjustedOf options) amount0 amount1 = Ok st0
    /\ amountADesired st0 = a0 /\ amountBDesired st0 = a1
    /\ addCallParameters now pair amount0 amount1 options
       = Ok (addLiquidityCall
               pair (isNative (currency amount0))
               (isNative (currency amount1))
               st0 to (deadlineHex now (expiry options))).
Proof.
  intros Hnative Httl Hto Hsn Hsd E0 E1 ER0 ER1 Ha0 Ha1 Hr0 Hr1 Hratio Hmax.
  destruct (initialAmounts_defined options amount0 amount1 Hsn Hsd)
    as (st0 & Hinit & Da & Db & _ & _ & _ & _);
    try (rewrite ?E0, ?E1; cbn; lia).
  rewrite E0 in Da. rewrite E1 in Db. cbn in Da, Db.
  rewrite Z.div_1_r in Da, Db.
  exists st0. split; [exact Hinit|]. split; [exact Da|]. split; [exact Db|].
  destruct (initialAmounts_inv _ _ _ _ Hinit) as (_ & _ & _ & HbM).
  unfold addCallParameters.
  rewrite Hnative, Httl, Hto. cbn [negb invariant bind].
  rewrite Hinit. cbn [bind]. unfold reconcile.
  rewrite ER0, ER1, E0, !equalTo_zero. cbn [numerator fromInt].
  destruct (Z.eqb_spec r0 0) as [?|_]; [lia|]. cbn [andb negb].
  assert (Hquot : a0 * r1 / r0 = a1)
    by (rewrite Hratio; apply Z.div_mul; lia).
  rewrite quoteAmount_within;
    try (unfold quote, divide, multiply, fromInt;
         cbn [numerator denominator]; lia);
    try (unfold withinUint256, quote, divide, multiply, fromInt;
         cbn [numerator denominator]; apply Z.leb_le;
         rewrite ?Z.mul_1_r, ?Z.mul_1_l, ?Z.quot_1_r;
         rewrite ?Z.quot_div_nonneg by nia; nia).
  cbn [bind].
  rewrite quote_integers by lia. cbn [bind].
  replace (a0 * r1 / r0) with (amountBDesired st0)
    by (rewrite Hratio, Z.div_mul, Db; lia).
  rewrite Z.leb_refl.
  destruct (Number (amountBDesired st0) <? Number (amountBMin st0));
    [|reflexivity].
  rewrite HbM. cbn [bind]. destruct st0; reflexivity.
Qed.

(** X18: with non-negative amounts, reserves and tolerance, every triple
    [addCallParameters] returns carries desired amounts that are not
    negative and minimums of at least 1 and at most the desired amount
    plus one; a minimum is never zero, even beside a desired amount of
    zero. *)
Theorem addCallParameters_amount_bounds
        (now : Z) (pair : Pair) (amount0 amount1 : CurrencyAmount)
        (options : TradeOptions) (sp : SwapParameters) :
  addCallParameters now pair amount0 amount1 options = Ok sp ->
  0 <= numerator (allowedSlippage options) ->
  0 < denominator (allowedSlippage options) ->
  0 <= numerator amount0 -> 0 < denominator amount0 ->
  0 <= numerator amount1 -> 0 < denominator amount1 ->
  0 <= numerator (reserve0 pair) -> 0 <= denominator (reserve0 pair) ->
  0 <= numerator (reserve1 pair) -> 0 <= denominator (reserve1 pair) ->
  exists to st,
    sp = addLiquidityCall
           pair (isNative (currency amount0)) (isNative (currency amount1))
           st to (deadlineHex now (expiry options))
    /\ 0 <= amountADesired st /\ 0 <= amountBDesired st
    /\ 1 <= amountAMin st <= amountADesired st + 1
    /\ 1 <= amountBMin st <= amountBDesired st + 1.
Proof.
  intros Hrun Hsn Hsd Hn0 Hd0 Hn1 Hd1 HnA HdA HnB HdB.
  destruct (addCallParameters_Ok_inv _ _ _ _ _ _ Hrun)
    as (_ & _ & to & st0' & st & _ & Hinit & Hrec & Hsp).
  exists to, st. split; [exact Hsp|].
  destruct (initialAmounts_defined options amount0 amount1
              Hsn Hsd Hn0 Hd0 Hn1 Hd1)
    as (st0 & Hinit' & _ & _ & Pa & Pb & Ma & Mb).
  rewrite Hinit in Hinit'. inversion Hinit'; subst st0'; clear Hinit'.
  destruct (initialAmounts_inv _ _ _ _ Hinit) as (_ & _ & HaM & HbM).
  assert (Hfloor : forall x m, 0 <= x ->
             minimumFor (slippageAdjustedOf options) x = Ok m ->
             1 <= m <= x + 1).
  { intros x m Hx Hm. split.
    - rewrite minimumFor_floor in Hm by assumption. inversion Hm.
      assert (0 <= denominator (allowedSlippage options) * x
                   / (denominator (allowedSlippage options)
                      + numerator (allowedSlippage options)))
        by (apply Z.div_pos; nia).
      lia.
    - now apply (minimumFor_le_succ options). }
  assert (Hopt : forall (a r s : Fraction) q,
             0 <= numerator a -> 0 < denominator a ->
             0 <= numerator r -> 0 <= denominator r ->
             0 <= numerator s -> 0 <= denominator s ->
             quotient (quote a r s) = Ok q -> 0 <= q).
  { intros a r s q ? ? ? ? ? ? Hq. apply quotient_Ok_inv in Hq.
    destruct Hq as [Hd Hq]. subst q.
    unfold quote, divide, multiply in *. cbn [numerator denominator] in *.
    apply Z.quot_pos; [nia|].
    assert (0 <= denominator a * denominator r * numerator s) by nia.
    lia. }
  destruct (reconcile_cases _ _ _ _ _ _ Hrec)
    as [E | [(b & Hb & _ & _ & Hm & Hd & HA & HAm)
            | (a & Ha & _ & _ & Hm & Hd & HB & HBm)]].
  - subst st. pose proof (Hfloor _ _ Pa HaM). pose proof (Hfloor _ _ Pb HbM).
    lia.
  - assert (0 <= b) by (eapply Hopt; [| | | | | | exact Hb]; lia).
    pose proof (Hfloor _ _ Pa HaM). pose proof (Hfloor _ _ H0 Hm).
    rewrite Hd, HA, HAm. lia.
  - assert (0 <= a) by (eapply Hopt; [| | | | | | exact Ha]; lia).
    pose proof (Hfloor _ _ Pb HbM). pose proof (Hfloor _ _ H0 Hm).
    rewrite Hd, HB, HBm. lia.
Qed.

End AddBounds.

(** ** Instances of the further properties *)

Lemma encoders_end_with_recipient_and_deadline_witness :
  let options :=
    mkTradeOptions (mkFraction 1 100) (Ttl 1200) Sample.alice None in
  exists front to deadline,
    args (mkSwapParameters
            "swapExactETHForTokens"
            [Str "0x708";
             Arr ["0x000000000000000000000000000000000000000a";
                  "0x000000000000000000000000000000000000000b"];
             Str Sample.alice; Str "0x6553f5b0"]
            "0xde0b6b3a7640000")
    = (front ++ [Str to; Str deadline])%list
    /\ validateAndParseAddress (H := Sample.validation) (recipient options)
       = Ok to
    /\ deadline = deadlineHex 1700000000999 (expiry options)
    /\ (forall absolute, expiry options = Deadline absolute ->
        decodeHex deadline = Some absolute)
    /\ (forall ttl, expiry options = Ttl ttl ->
        - 2 ^ 53 <= 1700000000999 / 1000 ->
        1700000000999 / 1000 + ttl <= 2 ^ 53 ->
        decodeHex deadline = Some (1700000000999 / 1000 + ttl)
        /\ 1700000000999 / 1000 < 1700000000999 / 1000 + ttl).
Proof.
  apply (encoders_end_with_recipient_and_deadline
           (H := Sample.validation) 1700000000999 Sample.trade
           Sample.emptyPool (Sample.raw Sample.erc20 0)
           (Sample.raw Sample.erc20 0) Sample.erc20 Sample.erc20 0 0 0).
  left. vm_compute. reflexivity.
Defined.

Lemma swapCallParameters_amounts_wellformed_witness :
  isHexAmount "0xde0b6b3a7640000" = true
  /\ exists to,
      validateAndParseAddress (H := Sample.validation) Sample.alice = Ok to
      /\ forall s,
          In s (stringArgs
                  [Str "0x708";
                   Arr ["0x000000000000000000000000000000000000000a";
                        "0x000000000000000000000000000000000000000b"];
                   Str Sample.alice; Str "0x6553f100"]) ->
          s = to \/ isHexAmount s = true.
Proof.
  apply (swapCallParameters_amounts_wellformed
           (H := Sample.validation) 0 Sample.trade
           (Sample.options (mkFraction 1 100))
           (mkSwapParameters
              "swapExactETHForTokens"
              [Str "0x708";
               Arr ["0x000000000000000000000000000000000000000a";
                    "0x000000000000000000000000000000000000000b"];
               Str Sample.alice; Str "0x6553f100"]
              "0xde0b6b3a7640000")).
  - vm_compute. reflexivity.
  - vm_compute. discriminate.
  - reflexivity.
  - vm_compute. discriminate.
  - reflexivity.
  - lia.
  - intros absolute E. inversion E. lia.
Defined.

Lemma swapCallParameters_first_failure_witness :
  swapCallParameters
    (H := Sample.validation) 0
    (mkTrade (Sample.raw Sample.ether 5) (Sample.raw Sample.ether 5)
             EXACT_OUTPUT [Sample.tokenA]
             (fun _ => Sample.raw Sample.ether 5)
             (fun _ => Sample.raw Sample.ether 5))
    (mkTradeOptions (mkFraction 1 100) (Ttl 0) "nobody" (Some true))
  = Throw (InvariantFailed "ETHER_IN_OUT").
Proof.
  refine (proj1 (swapCallParameters_first_failure
                   (H := Sample.validation) 0
                   (mkTrade (Sample.raw Sample.ether 5)
                            (Sample.raw Sample.ether 5)
                            EXACT_OUTPUT [Sample.tokenA]
                            (fun _ => Sample.raw Sample.ether 5)
                            (fun _ => Sample.raw Sample.ether 5))
                   (mkTradeOptions (mkFraction 1 100) (Ttl 0) "nobody"
                                   (Some true))
                   _ _) _);
    [cbn; lia | cbn; lia | reflexivity].
Defined.

Lemma addCallParameters_minimums_follow_desired_witness :
  let options := Sample.options (mkFraction 1 100) in
  let amount0 := Sample.raw Sample.erc20 100 in
  let amount1 := Sample.raw Sample.erc20 300 in
  exists to st0 st,
    initialAmounts (slippageAdjustedOf options) amount0 amount1 = Ok st0
    /\ addLiquidityCall Sample.unevenPool false false
                        (mkAddAmounts 100 200 100 199)
                        Sample.alice "0x6553f100"
       = addLiquidityCall
           Sample.unevenPool (isNative (currency amount0))
           (isNative (currency amount1))
           st to (deadlineHex 0 (expiry options))
    /\ minimumFor (slippageAdjustedOf options) (amountADesired st)
       = Ok (amountAMin st)
    /\ minimumFor (slippageAdjustedOf options) (amountBDesired st)
       = Ok (amountBMin st)
    /\ ((amountADesired st = amountADesired st0
         /\ amountAMin st = amountAMin st0)
        \/ (amountBDesired st = amountBDesired st0
            /\ amountBMin st = amountBMin st0)).
Proof.
  apply (addCallParameters_minimums_follow_desired
           (H := Sample.validation) 0 Sample.unevenPool
           (Sample.raw Sample.erc20 100) (Sample.raw Sample.erc20 300)
           (Sample.options (mkFraction 1 100))).
  vm_compute. reflexivity.
Defined.

Lemma addCallParameters_never_raises_desired_witness :
  let amount0 := Sample.raw Sample.erc20 100 in
  let amount1 := Sample.raw Sample.erc20 300 in
  exists to st,
    addLiquidityCall Sample.unevenPool false false
                     (mkAddAmounts 100 200 100 199)
                     Sample.alice "0x6553f100"
    = addLiquidityCall
        Sample.unevenPool (isNative (currency amount0))
        (isNative (currency amount1))
        st to (deadlineHex 0 (expiry (Sample.options (mkFraction 1 100))))
    /\ amountADesired st <= numerator amount0 / denominator amount0
    /\ amountBDesired st <= numerator amount1 / denominator amount1.
Proof.
  apply (addCallParameters_never_raises_desired
           (H := Sample.validation) 0 Sample.unevenPool
           (Sample.raw Sample.erc20 100) (Sample.raw Sample.erc20 300)
           (Sample.options (mkFraction 1 100)));
    [vm_compute; reflexivity | cbn; lia ..].
Defined.

Lemma addCallParameters_zero_tolerance_witness :
  let amount0 := Sample.raw Sample.erc20 100 in
  let amount1 := Sample.raw Sample.erc20 300 in
  exists to st,
    addLiquidityCall Sample.unevenPool false false
                     (mkAddAmounts 100 200 101 201)
                     Sample.alice "0x6553f100"
    = addLiquidityCall
        Sample.unevenPool (isNative (currency amount0))
        (isNative (currency amount1))
        st to (deadlineHex 0 (expiry (Sample.options (mkFraction 0 100))))
    /\ amountAMin st = amountADesired st + 1
    /\ amountBMin st = amountBDesired st + 1.
Proof.
  apply (addCallParameters_zero_tolerance
           (H := Sample.validation) 0 Sample.unevenPool
           (Sample.raw Sample.erc20 100) (Sample.raw Sample.erc20 300)
           (Sample.options (mkFraction 0 100)));
    [vm_compute; reflexivity | reflexivity | cbn; lia].
Defined.

Lemma addCallParameters_throws_iff_witness :
  addCallParameters (H := Sample.validation) 0 Sample.token1OnlyPool
                    (Sample.raw Sample.erc20 100)
                    (Sample.raw Sample.erc20 300)
                    (Sample.options (mkFraction 1 100))
  = Throw DivisionByZero.
Proof.
  refine (proj1 (proj2 (addCallParameters_throws_iff
                          (H := Sample.validation) 0 Sample.token1OnlyPool
                          (Sample.raw Sample.erc20 100)
                          (Sample.raw Sample.erc20 300)
                          (Sample.options (mkFraction 1 100)) Sample.alice
                          _ _ _ _ _ _ _ _ _ _ _)) _ _);
    try reflexivity; cbn; lia.
Defined.

Lemma addCallParameters_token0_only_pool_witness :
  let options := Sample.options (mkFraction 1 100) in
  let amount0 := Sample.raw Sample.erc20 100 in
  let amount1 := Sample.raw Sample.erc20 300 in
  exists st0,
    initialAmounts (slippageAdjustedOf options) amount0 amount1 = Ok st0
    /\ addCallParameters (H := Sample.validation) 0 Sample.token0OnlyPool
                         amount0 amount1 options
       = Ok (addLiquidityCall
               Sample.token0OnlyPool (isNative (currency amount0))
               (isNative (currency amount1))
               (mkAddAmounts (amountADesired st0) 0 (amountAMin st0) 1)
               Sample.alice (deadlineHex 0 (expiry options))).
Proof.
  apply (addCallParameters_token0_only_pool
           (H := Sample.validation) 0 Sample.token0OnlyPool
           (Sample.raw Sample.erc20 100) (Sample.raw Sample.erc20 300)
           (Sample.options (mkFraction 1 100)) Sample.alice);
    try reflexivity; cbn; lia.
Defined.

Lemma unreconciled_branch_unreachable_witness :
  (Number 50 <=? Number (amountADesired (mkAddAmounts 100 100 100 100)))
  = true.
Proof.
  apply (unreconciled_branch_unreachable
           Sample.unevenPool
           (Sample.raw Sample.erc20 100) (Sample.raw Sample.erc20 100)
           (Sample.options (mkFraction 1 100))
           (mkAddAmounts 100 100 100 100) 200 50);
    try reflexivity; cbn; lia.
Defined.

Lemma removeCallParameters_throws_iff_witness :
  removeCallParameters (H := Sample.validation) 0 Sample.unevenPool
                       Sample.erc20 Sample.erc20 0 10 50
                       (Sample.options (mkFraction 1 100))
  = Throw DivisionByZero.
Proof.
  refine (proj1 (removeCallParameters_throws_iff
                   (H := Sample.validation) 0 Sample.unevenPool
                   Sample.erc20 Sample.erc20 0 10 50
                   (Sample.options (mkFraction 1 100)) Sample.alice
                   _ _ _ _ _ _ _) _);
    try reflexivity; cbn; lia.
Defined.

Lemma removeCallParameters_bounds_witness :
  exists liquidity aMin bMin,
    removeCallParameters (H := Sample.validation) 0 Sample.unevenPool
                         Sample.erc20 Sample.erc20 40 10 50
                         (Sample.options (mkFraction 1 100))
    = Ok (removeLiquidityCall Sample.unevenPool false false
                              liquidity aMin bMin Sample.alice
                              (deadlineHex 0 (Deadline 1700000000)))
    /\ 0 <= liquidity <= 10
    /\ 0 <= aMin <= 1000 / 1
    /\ 0 <= bMin <= 2000 / 1.
Proof.
  apply (removeCallParameters_bounds
           (H := Sample.validation) 0 Sample.unevenPool
           Sample.erc20 Sample.erc20 40 10 50
           (Sample.options (mkFraction 1 100)) Sample.alice);
    try reflexivity; cbn; lia.
Defined.

Lemma encoders_read_clock_by_second_witness :
  let options := Sample.options (mkFraction 1 100) in
  swapCallParameters (H := Sample.validation) 0 Sample.trade options
  = swapCallParameters (H := Sample.validation) 1700000000999
                       Sample.trade options
  /\ addCallParameters (H := Sample.validation) 0 Sample.unevenPool
                       (Sample.raw Sample.erc20 100)
                       (Sample.raw Sample.erc20 300) options
     = addCallParameters (H := Sample.validation) 1700000000999
                         Sample.unevenPool
                         (Sample.raw Sample.erc20 100)
                         (Sample.raw Sample.erc20 300) options
  /\ removeCallParameters (H := Sample.validation) 0 Sample.unevenPool
                          Sample.erc20 Sample.erc20 40 10 50 options
     = removeCallParameters (H := Sample.validation) 1700000000999
                            Sample.unevenPool
                            Sample.erc20 Sample.erc20 40 10 50 options.
Proof.
  apply (encoders_read_clock_by_second
           (H := Sample.validation) 0 1700000000999).
  right. exists 1700000000. reflexivity.
Defined.

Lemma addCallParameters_balanced_deposit_witness :
  let options := Sample.options (mkFraction 1 100) in
  let amount0 := Sample.raw Sample.erc20 100 in
  let amount1 := Sample.raw Sample.erc20 200 in
  exists st0,
    initialAmounts (slippageAdjustedOf options) amount0 amount1 = Ok st0
    /\ amountADesired st0 = 100 /\ amountBDesired st0 = 200
    /\ addCallParameters (H := Sample.validation) 0 Sample.unevenPool
                         amount0 amount1 options
       = Ok (addLiquidityCall
               Sample.unevenPool (isNative (currency amount0))
               (isNative (currency amount1))
               st0 Sample.alice (deadlineHex 0 (expiry options))).
Proof.
  apply (addCallParameters_balanced_deposit
           (H := Sample.validation) 0 Sample.unevenPool
           (Sample.raw Sample.erc20 100) (Sample.raw Sample.erc20 200)
           (Sample.options (mkFraction 1 100)) Sample.alice
           100 200 1000 2000);
    try reflexivity; try (unfold MaxUint256); cbn; lia.
Defined.

Lemma addCallParameters_amount_bounds_witness :
  let amount0 := Sample.raw Sample.erc20 100 in
  let amount1 := Sample.raw Sample.erc20 300 in
  exists to st,
    addLiquidityCall Sample.unevenPool false false
                     (mkAddAmounts 100 200 100 199)
                     Sample.alice "0x6553f100"
    = addLiquidityCall
        Sample.unevenPool (isNative (currency amount0))
        (isNative (currency amount1))
        st to (deadlineHex 0 (expiry (Sample.options (mkFraction 1 100))))
    /\ 0 <= amountADesired st /\ 0 <= amountBDesired st
    /\ 1 <= amountAMin st <= amountADesired st + 1
    /\ 1 <= amountBMin st <= amountBDesired st + 1.
Proof.
  apply (addCallParameters_amount_bounds
           (H := Sample.validation) 0 Sample.unevenPool
           (Sample.raw Sample.erc20 100) (Sample.raw Sample.erc20 300)
           (Sample.options (mkFraction 1 100)));
    [vm_compute; reflexivity | cbn; lia ..].
Defined.

Lemma reconcile_exact_when_safe_witness :
  let amount0 := Sample.raw Sample.erc20 100 in
  let amount1 := Sample.raw Sample.erc20 300 in
  let slippageAdjusted :=
    slippageAdjustedOf (Sample.options (mkFraction 1 100)) in
  reconcile Sample.unevenPool amount0 amount1 slippageAdjusted
            (mkAddAmounts 100 300 100 298)
  = reconcileExact Sample.unevenPool amount0 amount1 slippageAdjusted
                   (mkAddAmounts 100 300 100 298).
Proof.
  apply (reconcile_exact_when_safe
           Sample.unevenPool
           (Sample.raw Sample.erc20 100) (Sample.raw Sample.erc20 300)
           (slippageAdjustedOf (Sample.options (mkFraction 1 100)))
           (mkAddAmounts 100 300 100 298));
    try (cbn; lia);
    intros x E; vm_compute in E; inversion E; lia.
Defined.
